(** * Identity sync and user data access (the user module, convex/schema.ts)

    A shallow embedding of the user module: the [users] table of the schema,
    the query helpers ([getUsers], [getRecentUsers], [getCurrentUser],
    [getCurrentUserOrThrow], [userByClerkUserId]) and the two internal
    mutations fed by the identity provider ([upsertFromClerk],
    [deleteFromClerk]).

    The document database is an external service.  Its table is modelled as
    the list of its documents in creation order together with the counter the
    next document id is drawn from; a thrown JavaScript exception is the [Err]
    branch of [Result], and a mutation is a function of the world it runs in
    (the table and the console). *)

From Stdlib Require Import List String Bool Arith Lia.
Import ListNotations.
Open Scope string_scope.
Open Scope list_scope.

(** ** JavaScript values and exceptions *)

(** A payload field of type [string | null] that may also be missing. *)
Inductive Nullable (A : Type) : Type :=
| JsNull : Nullable A
| JsUndefined : Nullable A
| JsValue : A -> Nullable A.
Arguments JsNull {A}.
Arguments JsUndefined {A}.
Arguments JsValue {A} _.

(** [x ?? undefined]: [null] and [undefined] both become [undefined], which
    is [None] here; every other value, the empty string included, is kept. *)
Definition coalesce_undefined {A} (x : Nullable A) : option A :=
  match x with
  | JsNull => None
  | JsUndefined => None
  | JsValue a => Some a
  end.

(** The exceptions the module can see. *)
Inductive Exn : Type :=
| TypeError                 (* property access on [undefined] *)
| NotUniqueError            (* [.unique()] met more than one document *)
| MissingDocument           (* [db.patch] / [db.delete] on an id that is gone *)
| Error (message : string). (* [new Error(message)] *)

Inductive Result (A : Type) : Type :=
| Ok : A -> Result A
| Err : Exn -> Result A.
Arguments Ok {A} _.
Arguments Err {A} _.

(** ** Schema (convex/schema.ts) *)

Definition Id := nat.

(** A document of the [users] table.  [None] is an absent optional field. *)
Record User : Type := mkUser {
  _id : Id;
  email : string;
  clerkUserId : string;
  firstname : option string;
  lastname : option string;
  imageUrl : option string;
  posts : option (list Id)
}.

(** The object literal [userAttributes] handed to [insert] and [patch]: the
    five mapped fields; [None] is a field whose value is [undefined]. *)
Record UserAttributes : Type := mkAttrs {
  attr_email : string;
  attr_clerkUserId : string;
  attr_firstname : option string;
  attr_lastname : option string;
  attr_imageUrl : option string
}.

(** ** The identity provider's payloads *)

Record EmailAddressJSON : Type := mkEmail { email_address : string }.

(** The fields of Clerk's [UserJSON] that the module reads. *)
Record UserJSON : Type := mkUserJSON {
  email_addresses : list EmailAddressJSON;
  id : string;
  first_name : Nullable string;
  last_name : Nullable string;
  image_url : Nullable string
}.

Record UserIdentity : Type := mkIdentity { subject : string }.

(** ** The document store *)

Module Db.

(** The [users] table: documents in creation order, oldest first, and the
    next id the store hands out. *)
Record Table : Type := mkTable {
  docs : list User;
  next_id : Id
}.

Definition empty : Table := mkTable [] 0.

(** [ctx.db.query("users").collect()]. *)
Definition collect (t : Table) : list User := docs t.

Inductive Order := asc | desc.

(** [.order(o)] on the default (creation time) index. *)
Definition order (o : Order) (l : list User) : list User :=
  match o with
  | asc => l
  | desc => rev l
  end.

(** [.take(n)]. *)
Definition take (n : nat) (l : list User) : list User := firstn n l.

(** [.withIndex('byClerkUserId', q => q.eq("clerkUserId", c))]. *)
Definition withIndex_byClerkUserId (c : string) (t : Table) : list User :=
  filter (fun u => String.eqb (clerkUserId u) c) (docs t).

(** [.unique()]: [null] for no document, the document when there is one,
    an exception when there are several. *)
Definition unique (l : list User) : Result (option User) :=
  match l with
  | [] => Ok None
  | [u] => Ok (Some u)
  | _ :: _ :: _ => Err NotUniqueError
  end.

Definition new_doc (i : Id) (a : UserAttributes) : User :=
  mkUser i (attr_email a) (attr_clerkUserId a) (attr_firstname a)
         (attr_lastname a) (attr_imageUrl a) None.

(** [ctx.db.insert("users", a)]: a fresh id, the document goes last. *)
Definition insert (a : UserAttributes) (t : Table) : Id * Table :=
  (next_id t, mkTable (docs t ++ [new_doc (next_id t) a]) (S (next_id t))).

(** The shallow merge of [patch]: every field of the patch object is
    written, a field whose value is [undefined] is removed; [_id] and
    [posts] are not in the object and stay. *)
Definition merge (a : UserAttributes) (u : User) : User :=
  mkUser (_id u) (attr_email a) (attr_clerkUserId a) (attr_firstname a)
         (attr_lastname a) (attr_imageUrl a) (posts u).

Fixpoint patch_docs (i : Id) (a : UserAttributes) (l : list User)
  : option (list User) :=
  match l with
  | [] => None
  | u :: rest =>
      if Nat.eqb (_id u) i then Some (merge a u :: rest)
      else option_map (cons u) (patch_docs i a rest)
  end.

(** [ctx.db.patch(i, a)]. *)
Definition patch (i : Id) (a : UserAttributes) (t : Table) : Result Table :=
  match patch_docs i a (docs t) with
  | Some l => Ok (mkTable l (next_id t))
  | None => Err MissingDocument
  end.

Fixpoint delete_docs (i : Id) (l : list User) : option (list User) :=
  match l with
  | [] => None
  | u :: rest =>
      if Nat.eqb (_id u) i then Some rest
      else option_map (cons u) (delete_docs i rest)
  end.

(** [ctx.db.delete(i)]. *)
Definition delete (i : Id) (t : Table) : Result Table :=
  match delete_docs i (docs t) with
  | Some l => Ok (mkTable l (next_id t))
  | None => Err MissingDocument
  end.

End Db.

(** ** Contexts and the mutation monad *)

(** What a query sees: the caller's identity, if any, and the table. *)
Record QueryCtx : Type := mkQueryCtx {
  auth : option UserIdentity;
  qdb : Db.Table
}.

(** What a mutation can change: the table and the console. *)
Record World : Type := mkWorld {
  db : Db.Table;
  console : list string
}.

Definition Mutation (A : Type) : Type := World -> Result (A * World).

Definition ret {A} (a : A) : Mutation A := fun w => Ok (a, w).

Definition bind {A B} (m : Mutation A) (k : A -> Mutation B) : Mutation B :=
  fun w =>
    match m w with
    | Ok (a, w') => k a w'
    | Err e => Err e
    end.

Notation "x <- m ;; k" := (bind m (fun x => k))
  (at level 61, m at next level, right associativity).
Notation "m ;;; k" := (bind m (fun _ => k))
  (at level 61, right associativity).

(** A computation that touches nothing and may throw. *)
Definition lift {A} (r : Result A) : Mutation A :=
  fun w =>
    match r with
    | Ok a => Ok (a, w)
    | Err e => Err e
    end.

(** A read of the table from inside a mutation. *)
Definition read {A} (q : Db.Table -> Result A) : Mutation A :=
  fun w =>
    match q (db w) with
    | Ok a => Ok (a, w)
    | Err e => Err e
    end.

Definition db_insert (a : UserAttributes) : Mutation Id :=
  fun w =>
    let (i, t) := Db.insert a (db w) in Ok (i, mkWorld t (console w)).

Definition db_patch (i : Id) (a : UserAttributes) : Mutation unit :=
  fun w =>
    match Db.patch i a (db w) with
    | Ok t => Ok (tt, mkWorld t (console w))
    | Err e => Err e
    end.

Definition db_delete (i : Id) : Mutation unit :=
  fun w =>
    match Db.delete i (db w) with
    | Ok t => Ok (tt, mkWorld t (console w))
    | Err e => Err e
    end.

Definition console_warn (msg : string) : Mutation unit :=
  fun w => Ok (tt, mkWorld (db w) (console w ++ [msg])).

(** A mutation runs as one transaction: when it throws, nothing it did is
    kept. *)
Definition runMutation (m : Mutation unit) (w : World) : World :=
  match m w with
  | Ok (_, w') => w'
  | Err _ => w
  end.

(** ** The user module *)

Definition getUsers (ctx : QueryCtx) : list User :=
  Db.collect (qdb ctx).

Definition getRecentUsers (ctx : QueryCtx) : list User :=
  Db.take 5 (Db.order Db.desc (Db.collect (qdb ctx))).

Definition userByClerkUserId (c : string) (t : Db.Table)
  : Result (option User) :=
  Db.unique (Db.withIndex_byClerkUserId c t).

Definition getCurrentUser (ctx : QueryCtx) : Result (option User) :=
  match auth ctx with
  | None => Ok None
  | Some identity => userByClerkUserId (subject identity) (qdb ctx)
  end.

Definition current (ctx : QueryCtx) : Result (option User) :=
  getCurrentUser ctx.

Definition getCurrentUserOrThrow (ctx : QueryCtx) : Result User :=
  match getCurrentUser ctx with
  | Err e => Err e
  | Ok None => Err (Error "Can't get current user")
  | Ok (Some userRecord) => Ok userRecord
  end.

(** The object literal at the head of [upsertFromClerk]:
    [data.email_addresses[0]] is [undefined] on an empty array, and reading
    [.email_address] from it throws. *)
Definition userAttributes (data : UserJSON) : Result UserAttributes :=
  match nth_error (email_addresses data) 0 with
  | None => Err TypeError
  | Some e =>
      Ok (mkAttrs (email_address e)
                  (id data)
                  (coalesce_undefined (first_name data))
                  (coalesce_undefined (last_name data))
                  (coalesce_undefined (image_url data)))
  end.

Definition upsertFromClerk (data : UserJSON) : Mutation unit :=
  attrs <- lift (userAttributes data) ;;
  user <- read (userByClerkUserId (id data)) ;;
  match user with
  | None => db_insert attrs ;;; ret tt
  | Some u => db_patch (_id u) attrs
  end.

Definition deleteFromClerk (clerkUserId : string) : Mutation unit :=
  user <- read (userByClerkUserId clerkUserId) ;;
  match user with
  | Some u => db_delete (_id u)
  | None =>
      console_warn ("Cannot delete user! No user with ID: " ++ clerkUserId)
  end.

(** ** Invocations of the sync mutations, one transaction each *)

Inductive SyncCall : Type :=
| CallUpsert (data : UserJSON)
| CallDelete (clerkUserId : string).

Definition runCall (c : SyncCall) : World -> World :=
  match c with
  | CallUpsert data => runMutation (upsertFromClerk data)
  | CallDelete cid => runMutation (deleteFromClerk cid)
  end.

Fixpoint runCalls (cs : list SyncCall) (w : World) : World :=
  match cs with
  | [] => w
  | c :: rest => runCalls rest (runCall c w)
  end.

(** The subject id a call is about. *)
Definition call_subject (c : SyncCall) : string :=
  match c with
  | CallUpsert data => id data
  | CallDelete cid => cid
  end.

(** The query context of a caller signed in with subject id [c]. *)
Definition signed_in_as (c : string) (t : Db.Table) : QueryCtx :=
  mkQueryCtx (Some (mkIdentity c)) t.

(** ** Predicates on tables *)

(** What the store guarantees by itself: document ids are pairwise distinct
    and older than the next id. *)
Definition wf_table (t : Db.Table) : Prop :=
  NoDup (map _id (Db.docs t)) /\
  Forall (fun u => _id u < Db.next_id t) (Db.docs t).

(** The invariant of the data model: at most one user per subject id. *)
Definition one_per_subject (t : Db.Table) : Prop :=
  NoDup (map clerkUserId (Db.docs t)).

(** The subject id [c] has no user record. *)
Definition unseen (c : string) (t : Db.Table) : Prop :=
  forall u, In u (Db.docs t) -> clerkUserId u <> c.

(** The payload lists at least one email address. *)
Definition valid_payload (data : UserJSON) : Prop :=
  email_addresses data <> [].

(** The caller of a query has no user record: nobody is signed in, or the
    subject id of the identity is not in the table. *)
Definition no_current_user (ctx : QueryCtx) : Prop :=
  match auth ctx with
  | None => True
  | Some identity => unseen (subject identity) (qdb ctx)
  end.

(** An optional payload field against the stored field: a value is stored as
    it is, [null] and a missing field leave the stored field absent. *)
Definition field_matches (x : Nullable string) (o : option string) : Prop :=
  match x with
  | JsValue s => o = Some s
  | JsNull | JsUndefined => o = None
  end.

(** The record carries what the payload says: the first listed email
    address, the subject id, and the three optional fields. *)
Definition mapped (data : UserJSON) (u : User) : Prop :=
  option_map email_address (hd_error (email_addresses data)) = Some (email u) /\
  clerkUserId u = id data /\
  field_matches (first_name data) (firstname u) /\
  field_matches (last_name data) (lastname u) /\
  field_matches (image_url data) (imageUrl u).

(** ** Sample data (the scenario of the spec and a few tables around it) *)

Module Sample.

(** "insert event for subject u_1 with email a@example.com, no name
    fields". *)
Definition created : UserJSON :=
  mkUserJSON [mkEmail "a@example.com"; mkEmail "second@example.com"]
             "u_1" JsNull JsUndefined (JsValue "https://img.example/1.png").

(** "an update event for u_1 adding firstname Ann". *)
Definition updated : UserJSON :=
  mkUserJSON [mkEmail "a@example.com"] "u_1" (JsValue "Ann") JsNull JsNull.

(** A payload without any email address. *)
Definition no_email : UserJSON :=
  mkUserJSON [] "u_9" (JsValue "Nemo") JsNull JsNull.

Definition user (i : Id) (mail subj : string) (p : option (list Id)) : User :=
  mkUser i mail subj None None None p.

Definition bob : User := user 0 "bob@example.com" "u_0" (Some [4; 2]).
Definition ann : User := user 1 "old@example.com" "u_1" (Some [7; 9]).
Definition cat : User := user 2 "cat@example.com" "u_2" None.

Definition fresh : World := mkWorld Db.empty [].

(** A table in which u_1 is unknown. *)
Definition without_u1 : World := mkWorld (Db.mkTable [bob; cat] 3) [].

(** A table in which u_1 has a record that owns posts. *)
Definition with_u1 : World := mkWorld (Db.mkTable [bob; ann; cat] 3) [].

(** Seven users, oldest first. *)
Definition seven : Db.Table :=
  Db.mkTable
    [user 0 "m0" "s0" None; user 1 "m1" "s1" None; user 2 "m2" "s2" None;
     user 3 "m3" "s3" None; user 4 "m4" "s4" None; user 5 "m5" "s5" None;
     user 6 "m6" "s6" None] 7.

(** A table that breaks the invariant: two records for u_1. *)
Definition doubled : Db.Table :=
  Db.mkTable [ann; user 5 "other@example.com" "u_1" None] 6.

Definition signed_in (subj : string) (t : Db.Table) : QueryCtx :=
  mkQueryCtx (Some (mkIdentity subj)) t.

Definition signed_out (t : Db.Table) : QueryCtx := mkQueryCtx None t.

Definition calls : list SyncCall :=
  [CallUpsert created; CallUpsert no_email; CallUpsert updated;
   CallDelete "u_7"; CallDelete "u_0"; CallUpsert created].

End Sample.

(** * Properties *)

(** ** The index lookup *)

Section Index.

Variable c : string.

Let hit (u : User) : bool := String.eqb (clerkUserId u) c.

Lemma hit_true (u : User) : hit u = true <-> clerkUserId u = c.
Proof. unfold hit. apply String.eqb_eq. Qed.

Lemma hit_false (u : User) : hit u = false <-> clerkUserId u <> c.
Proof. unfold hit. apply String.eqb_neq. Qed.

Lemma filter_hit_nil (l : list User) :
  filter hit l = [] <-> (forall u, In u l -> clerkUserId u <> c).
Proof.
  induction l as [|v l IH]; simpl.
  - split; [intros _ u [] | reflexivity].
  - destruct (hit v) eqn:Hv.
    + split; [discriminate|].
      intros H. exfalso. apply (H v); [now left | now apply hit_true].
    + rewrite IH. split.
      * intros H u [<-|Hu]; [now apply hit_false | now apply H].
      * intros H u Hu. apply H. now right.
Qed.

Lemma filter_hit_not_in (l : list User) :
  ~ In c (map clerkUserId l) -> filter hit l = [].
Proof.
  intros H. apply filter_hit_nil. intros u Hu Hc. apply H.
  rewrite <- Hc. now apply in_map.
Qed.

(** A lookup that finds one document splits the table around it. *)
Lemma filter_hit_single (l : list User) (u : User) :
  filter hit l = [u] ->
  exists l1 l2, l = l1 ++ u :: l2 /\ clerkUserId u = c /\
                filter hit l1 = [] /\ filter hit l2 = [].
Proof.
  induction l as [|v l IH]; simpl; [discriminate|].
  destruct (hit v) eqn:Hv.
  - intros H. injection H as -> Hl.
    exists [], l. repeat split; auto. now apply hit_true.
  - intros H. destruct (IH H) as (l1 & l2 & -> & Hc & H1 & H2).
    exists (v :: l1), l2. simpl. rewrite Hv. repeat split; auto.
Qed.

Lemma filter_hit_split (l1 l2 : list User) (u : User) :
  clerkUserId u = c -> filter hit l1 = [] -> filter hit l2 = [] ->
  filter hit (l1 ++ u :: l2) = [u].
Proof.
  intros Hc H1 H2. rewrite filter_app. simpl.
  apply hit_true in Hc. rewrite Hc, H1, H2. reflexivity.
Qed.

(** Under the invariant the index holds at most one document per key. *)
Lemma filter_hit_NoDup (l : list User) :
  NoDup (map clerkUserId l) ->
  filter hit l = [] \/ exists u, filter hit l = [u].
Proof.
  induction l as [|v l IH]; simpl; intros H; [now left|].
  inversion H as [|? ? Hn Hd]; subst.
  destruct (hit v) eqn:Hv.
  - right. exists v. f_equal. apply filter_hit_not_in.
    apply hit_true in Hv. now rewrite <- Hv.
  - now apply IH.
Qed.

End Index.

Lemma userByClerkUserId_unseen (c : string) (t : Db.Table) :
  unseen c t -> userByClerkUserId c t = Ok None.
Proof.
  intros H. unfold userByClerkUserId, Db.withIndex_byClerkUserId.
  apply filter_hit_nil in H. now rewrite H.
Qed.

Lemma userByClerkUserId_None (c : string) (t : Db.Table) :
  userByClerkUserId c t = Ok None -> unseen c t.
Proof.
  unfold userByClerkUserId, Db.withIndex_byClerkUserId, unseen.
  intros H. apply filter_hit_nil.
  destruct (filter _ _) as [|a [|b r]]; simpl in H; congruence.
Qed.

Lemma userByClerkUserId_Some (c : string) (t : Db.Table) (u : User) :
  userByClerkUserId c t = Ok (Some u) ->
  exists l1 l2, Db.docs t = l1 ++ u :: l2 /\ clerkUserId u = c /\
                (forall v, In v l1 -> clerkUserId v <> c) /\
                (forall v, In v l2 -> clerkUserId v <> c).
Proof.
  unfold userByClerkUserId, Db.withIndex_byClerkUserId.
  intros H.
  destruct (filter _ _) as [|a [|b r]] eqn:Hf; simpl in H; try congruence.
  injection H as ->.
  destruct (filter_hit_single _ _ _ Hf) as (l1 & l2 & E & Hc & H1 & H2).
  exists l1, l2. rewrite <- !filter_hit_nil. auto.
Qed.

Lemma userByClerkUserId_split (c : string) (t : Db.Table) l1 u l2 :
  Db.docs t = l1 ++ u :: l2 -> clerkUserId u = c ->
  (forall v, In v l1 -> clerkUserId v <> c) ->
  (forall v, In v l2 -> clerkUserId v <> c) ->
  userByClerkUserId c t = Ok (Some u).
Proof.
  intros E Hc H1 H2. unfold userByClerkUserId, Db.withIndex_byClerkUserId.
  rewrite E, filter_hit_split; auto; now apply filter_hit_nil.
Qed.

(** Under the invariant the lookup never throws. *)
Lemma userByClerkUserId_total (c : string) (t : Db.Table) :
  one_per_subject t -> exists r, userByClerkUserId c t = Ok r.
Proof.
  intros H. unfold userByClerkUserId, Db.withIndex_byClerkUserId.
  destruct (filter_hit_NoDup c _ H) as [-> | [u ->]]; simpl; eauto.
Qed.

(** ** Writes by document id *)

Lemma patch_docs_split (a : UserAttributes) (l1 l2 : list User) (u : User) :
  NoDup (map _id (l1 ++ u :: l2)) ->
  Db.patch_docs (_id u) a (l1 ++ u :: l2) = Some (l1 ++ Db.merge a u :: l2).
Proof.
  induction l1 as [|v l1 IH]; simpl; intros H.
  - now rewrite Nat.eqb_refl.
  - inversion H as [|? ? Hn Hd]; subst.
    destruct (Nat.eqb (_id v) (_id u)) eqn:E.
    + exfalso. apply Hn. apply Nat.eqb_eq in E. rewrite E.
      rewrite map_app. apply in_or_app. right. now left.
    + now rewrite IH.
Qed.

Lemma delete_docs_split (l1 l2 : list User) (u : User) :
  NoDup (map _id (l1 ++ u :: l2)) ->
  Db.delete_docs (_id u) (l1 ++ u :: l2) = Some (l1 ++ l2).
Proof.
  induction l1 as [|v l1 IH]; simpl; intros H.
  - now rewrite Nat.eqb_refl.
  - inversion H as [|? ? Hn Hd]; subst.
    destruct (Nat.eqb (_id v) (_id u)) eqn:E.
    + exfalso. apply Hn. apply Nat.eqb_eq in E. rewrite E.
      rewrite map_app. apply in_or_app. right. now left.
    + now rewrite IH.
Qed.

Lemma merge_merge (a : UserAttributes) (u : User) :
  Db.merge a (Db.merge a u) = Db.merge a u.
Proof. reflexivity. Qed.

Lemma map_id_merge (a : UserAttributes) (l1 l2 : list User) (u : User) :
  map _id (l1 ++ Db.merge a u :: l2) = map _id (l1 ++ u :: l2).
Proof. now rewrite !map_app. Qed.

(** ** The two mutations, case by case *)

Lemma userAttributes_valid (data : UserJSON) :
  valid_payload data ->
  exists e rest, email_addresses data = e :: rest /\
    userAttributes data =
      Ok (mkAttrs (email_address e) (id data)
                  (coalesce_undefined (first_name data))
                  (coalesce_undefined (last_name data))
                  (coalesce_undefined (image_url data))).
Proof.
  unfold valid_payload, userAttributes.
  destruct (email_addresses data) as [|e rest]; [congruence|].
  intros _. exists e, rest. split; reflexivity.
Qed.

Lemma userAttributes_subject (data : UserJSON) (a : UserAttributes) :
  userAttributes data = Ok a -> attr_clerkUserId a = id data.
Proof.
  unfold userAttributes.
  destruct (nth_error _ _); [|discriminate].
  intros H. injection H as <-. reflexivity.
Qed.

(** The insert branch. *)
Lemma upsert_unseen (data : UserJSON) (a : UserAttributes) (w : World) :
  userAttributes data = Ok a ->
  unseen (id data) (db w) ->
  upsertFromClerk data w =
    Ok (tt, mkWorld (snd (Db.insert a (db w))) (console w)).
Proof.
  intros Ha Hu. unfold upsertFromClerk, bind, lift, read.
  rewrite Ha, (userByClerkUserId_unseen _ _ Hu). reflexivity.
Qed.

(** The patch branch. *)
Lemma upsert_seen (data : UserJSON) (a : UserAttributes) (w : World) l1 u l2 :
  userAttributes data = Ok a ->
  NoDup (map _id (Db.docs (db w))) ->
  Db.docs (db w) = l1 ++ u :: l2 ->
  userByClerkUserId (id data) (db w) = Ok (Some u) ->
  upsertFromClerk data w =
    Ok (tt, mkWorld (Db.mkTable (l1 ++ Db.merge a u :: l2)
                                (Db.next_id (db w)))
                    (console w)).
Proof.
  intros Ha Hnd E Hu. unfold upsertFromClerk, bind, lift, read.
  rewrite Ha, Hu. unfold db_patch, Db.patch.
  rewrite E, patch_docs_split; [reflexivity | now rewrite <- E].
Qed.

(** The delete branch. *)
Lemma delete_seen (c : string) (w : World) l1 u l2 :
  NoDup (map _id (Db.docs (db w))) ->
  Db.docs (db w) = l1 ++ u :: l2 ->
  userByClerkUserId c (db w) = Ok (Some u) ->
  deleteFromClerk c w =
    Ok (tt, mkWorld (Db.mkTable (l1 ++ l2) (Db.next_id (db w))) (console w)).
Proof.
  intros Hnd E Hu. unfold deleteFromClerk, bind, read.
  rewrite Hu. unfold db_delete, Db.delete.
  rewrite E, delete_docs_split; [reflexivity | now rewrite <- E].
Qed.

(** The warning branch. *)
Lemma delete_unseen (c : string) (w : World) :
  unseen c (db w) ->
  deleteFromClerk c w =
    Ok (tt, mkWorld (db w)
              (console w ++ [("Cannot delete user! No user with ID: " ++ c)%string])).
Proof.
  intros Hu. unfold deleteFromClerk, bind, read.
  rewrite (userByClerkUserId_unseen _ _ Hu). reflexivity.
Qed.

Lemma patch_docs_In (a : UserAttributes) (l : list User) (u : User) :
  In u l -> exists l', Db.patch_docs (_id u) a l = Some l'.
Proof.
  induction l as [|v l IH]; simpl; [intros []|].
  intros H. destruct (Nat.eqb (_id v) (_id u)) eqn:E; [eauto|].
  destruct H as [->|H]; [now rewrite Nat.eqb_refl in E|].
  destruct (IH H) as [l' ->]. simpl. eauto.
Qed.

(** What a successful upsert did: it inserted for an unknown subject id, or
    it patched the one record of a known one. *)
Lemma upsert_inv (data : UserJSON) (w w1 : World) :
  NoDup (map _id (Db.docs (db w))) ->
  upsertFromClerk data w = Ok (tt, w1) ->
  exists a, userAttributes data = Ok a /\
    ((unseen (id data) (db w) /\
      w1 = mkWorld (snd (Db.insert a (db w))) (console w)) \/
     (exists l1 u l2,
        Db.docs (db w) = l1 ++ u :: l2 /\ clerkUserId u = id data /\
        (forall v, In v l1 -> clerkUserId v <> id data) /\
        (forall v, In v l2 -> clerkUserId v <> id data) /\
        w1 = mkWorld (Db.mkTable (l1 ++ Db.merge a u :: l2)
                                 (Db.next_id (db w)))
                     (console w))).
Proof.
  intros Hnd H.
  destruct (userAttributes data) as [a|e] eqn:Ha;
    [|unfold upsertFromClerk, bind, lift in H; rewrite Ha in H; discriminate].
  exists a. split; [reflexivity|].
  destruct (userByClerkUserId (id data) (db w)) as [[u|]|e] eqn:Hu.
  - right.
    destruct (userByClerkUserId_Some _ _ _ Hu) as (l1 & l2 & E & Hc & H1 & H2).
    exists l1, u, l2. repeat split; auto.
    rewrite (upsert_seen _ _ _ _ _ _ Ha Hnd E Hu) in H. congruence.
  - left. apply userByClerkUserId_None in Hu. split; [assumption|].
    rewrite (upsert_unseen _ _ _ Ha Hu) in H. congruence.
  - unfold upsertFromClerk, bind, lift, read in H.
    rewrite Ha, Hu in H. discriminate.
Qed.

(** What a successful delete did. *)
Lemma delete_inv (c : string) (w w1 : World) :
  NoDup (map _id (Db.docs (db w))) ->
  deleteFromClerk c w = Ok (tt, w1) ->
  (unseen c (db w) /\ db w1 = db w) \/
  (exists l1 u l2,
     Db.docs (db w) = l1 ++ u :: l2 /\ clerkUserId u = c /\
     (forall v, In v l1 -> clerkUserId v <> c) /\
     (forall v, In v l2 -> clerkUserId v <> c) /\
     w1 = mkWorld (Db.mkTable (l1 ++ l2) (Db.next_id (db w))) (console w)).
Proof.
  intros Hnd H.
  destruct (userByClerkUserId c (db w)) as [[u|]|e] eqn:Hu.
  - right.
    destruct (userByClerkUserId_Some _ _ _ Hu) as (l1 & l2 & E & Hc & H1 & H2).
    exists l1, u, l2. repeat split; auto.
    rewrite (delete_seen _ _ _ _ _ Hnd E Hu) in H. congruence.
  - left. apply userByClerkUserId_None in Hu. split; [assumption|].
    rewrite (delete_unseen _ _ Hu) in H. injection H as <-. reflexivity.
  - unfold deleteFromClerk, bind, read in H. rewrite Hu in H. discriminate.
Qed.

(** ** Well-formedness and the invariant across writes *)

Lemma wf_empty : wf_table Db.empty /\ one_per_subject Db.empty.
Proof. repeat split; constructor. Qed.

Lemma wf_insert (a : UserAttributes) (t : Db.Table) :
  wf_table t -> wf_table (snd (Db.insert a t)).
Proof.
  intros [Hnd Hlt]. split; simpl.
  - rewrite map_app. simpl.
    rewrite <- (rev_involutive (map _id (Db.docs t) ++ [Db.next_id t])).
    apply NoDup_rev. rewrite rev_app_distr. simpl. constructor.
    + rewrite <- in_rev. rewrite in_map_iff. intros (u & Hi & Hu).
      rewrite Forall_forall in Hlt. specialize (Hlt u Hu). lia.
    + now apply NoDup_rev.
  - apply Forall_app. split.
    + eapply Forall_impl; [|exact Hlt]. simpl. intros; lia.
    + repeat constructor.
Qed.

Lemma one_per_subject_insert (a : UserAttributes) (t : Db.Table) :
  unseen (attr_clerkUserId a) t -> one_per_subject t ->
  one_per_subject (snd (Db.insert a t)).
Proof.
  unfold one_per_subject. intros Hu Hnd. simpl. rewrite map_app. simpl.
  rewrite <- (rev_involutive (map clerkUserId (Db.docs t) ++ _)).
  apply NoDup_rev. rewrite rev_app_distr. simpl. constructor.
  - rewrite <- in_rev. rewrite in_map_iff. intros (u & Hc & Hi).
    now apply (Hu u).
  - now apply NoDup_rev.
Qed.

Lemma wf_patched (a : UserAttributes) (t : Db.Table) l1 u l2 :
  Db.docs t = l1 ++ u :: l2 -> wf_table t ->
  wf_table (Db.mkTable (l1 ++ Db.merge a u :: l2) (Db.next_id t)).
Proof.
  intros E [Hnd Hlt]. split; simpl.
  - rewrite map_id_merge, <- E. assumption.
  - rewrite E in Hlt. apply Forall_app in Hlt. destruct Hlt as [H1 H2].
    inversion H2; subst. apply Forall_app. split; [assumption|].
    constructor; assumption.
Qed.

Lemma one_per_subject_patched (a : UserAttributes) (t : Db.Table) l1 u l2 :
  Db.docs t = l1 ++ u :: l2 -> attr_clerkUserId a = clerkUserId u ->
  one_per_subject t ->
  one_per_subject (Db.mkTable (l1 ++ Db.merge a u :: l2) (Db.next_id t)).
Proof.
  unfold one_per_subject. intros E Hc H. simpl.
  rewrite E in H. rewrite map_app in *. simpl in *. now rewrite Hc.
Qed.

Lemma wf_deleted (t : Db.Table) l1 u l2 :
  Db.docs t = l1 ++ u :: l2 -> wf_table t ->
  wf_table (Db.mkTable (l1 ++ l2) (Db.next_id t)).
Proof.
  intros E [Hnd Hlt]. rewrite E in Hnd, Hlt. split; simpl.
  - rewrite map_app in *. simpl in Hnd. now apply NoDup_remove_1 in Hnd.
  - apply Forall_app in Hlt. destruct Hlt as [H1 H2].
    inversion H2; subst. apply Forall_app. now split.
Qed.

Lemma one_per_subject_deleted (t : Db.Table) l1 u l2 :
  Db.docs t = l1 ++ u :: l2 -> one_per_subject t ->
  one_per_subject (Db.mkTable (l1 ++ l2) (Db.next_id t)).
Proof.
  unfold one_per_subject. intros E H. rewrite E in H. simpl.
  rewrite map_app in *. simpl in H. now apply NoDup_remove_1 in H.
Qed.

(** Under the invariant the table splits around any of its records, with
    no other record of the same subject id on either side. *)
Lemma one_per_subject_split (t : Db.Table) l1 u l2 :
  Db.docs t = l1 ++ u :: l2 -> one_per_subject t ->
  (forall v, In v l1 -> clerkUserId v <> clerkUserId u) /\
  (forall v, In v l2 -> clerkUserId v <> clerkUserId u).
Proof.
  unfold one_per_subject. intros E H. rewrite E, map_app in H. simpl in H.
  apply NoDup_remove_2 in H.
  split; intros v Hv Hc; apply H; rewrite <- Hc; apply in_or_app;
    [left | right]; now apply in_map.
Qed.

(** One call keeps both. *)
Lemma runCall_keeps (c : SyncCall) (w : World) :
  wf_table (db w) -> one_per_subject (db w) ->
  wf_table (db (runCall c w)) /\ one_per_subject (db (runCall c w)).
Proof.
  intros Hwf Hinv. destruct c as [data|cid]; simpl; unfold runMutation.
  - destruct (upsertFromClerk data w) as [[[] w1]|e] eqn:H; [|now split].
    destruct (upsert_inv _ _ _ (proj1 Hwf) H) as (a & Ha & [[Hu ->]|Hp]).
    + simpl. split; [now apply wf_insert|].
      apply one_per_subject_insert; [|assumption].
      now rewrite (userAttributes_subject _ _ Ha).
    + destruct Hp as (l1 & u & l2 & E & Hc & _ & _ & ->). simpl. split.
      * now apply wf_patched.
      * apply one_per_subject_patched; [assumption | | assumption].
        now rewrite (userAttributes_subject _ _ Ha).
  - destruct (deleteFromClerk cid w) as [[[] w1]|e] eqn:H; [|now split].
    destruct (delete_inv _ _ _ (proj1 Hwf) H) as [[_ ->]|Hd]; [now split|].
    destruct Hd as (l1 & u & l2 & E & _ & _ & _ & ->). simpl. split.
    + now apply wf_deleted with (u := u).
    + now apply one_per_subject_deleted with (u := u).
Qed.

Lemma mapped_attrs (data : UserJSON) (a : UserAttributes) (u : User) :
  userAttributes data = Ok a ->
  email u = attr_email a -> clerkUserId u = attr_clerkUserId a ->
  firstname u = attr_firstname a -> lastname u = attr_lastname a ->
  imageUrl u = attr_imageUrl a ->
  mapped data u.
Proof.
  unfold userAttributes, mapped.
  destruct (email_addresses data) as [|e rest]; simpl; [discriminate|].
  intros H. injection H as <-. simpl.
  intros -> -> -> -> ->. repeat split;
    match goal with |- field_matches ?x _ => destruct x; reflexivity end.
Qed.

Lemma valid_payload_attrs (data : UserJSON) :
  valid_payload data -> exists a, userAttributes data = Ok a.
Proof.
  intros H. destruct (userAttributes_valid data H) as (e & r & _ & Ha). eauto.
Qed.

(** A successful upsert stands still when it is run again. *)
Lemma upsert_fixed (data : UserJSON) (w w1 : World) :
  wf_table (db w) ->
  upsertFromClerk data w = Ok (tt, w1) ->
  upsertFromClerk data w1 = Ok (tt, w1) /\
  exists u, userByClerkUserId (id data) (db w1) = Ok (Some u).
Proof.
  intros Hwf H.
  destruct (upsert_inv _ _ _ (proj1 Hwf) H) as (a & Ha & [[Hu ->]|Hp]).
  - assert (Hl : userByClerkUserId (id data)
                   (snd (Db.insert a (db w)))
                 = Ok (Some (Db.new_doc (Db.next_id (db w)) a))).
    { apply userByClerkUserId_split with (l1 := Db.docs (db w)) (l2 := []);
        [reflexivity | | assumption | intros v []].
      simpl. now apply userAttributes_subject. }
    split; [|eauto].
    exact (upsert_seen data a
             (mkWorld (snd (Db.insert a (db w))) (console w))
             (Db.docs (db w)) (Db.new_doc (Db.next_id (db w)) a) []
             Ha (proj1 (wf_insert a _ Hwf)) eq_refl Hl).
  - destruct Hp as (l1 & u & l2 & E & Hc & H1 & H2 & ->).
    assert (Hl : userByClerkUserId (id data)
                   (Db.mkTable (l1 ++ Db.merge a u :: l2) (Db.next_id (db w)))
                 = Ok (Some (Db.merge a u))).
    { apply userByClerkUserId_split with (l1 := l1) (l2 := l2);
        [reflexivity | | assumption | assumption].
      simpl. now apply userAttributes_subject. }
    split; [|eauto].
    exact (upsert_seen data a
             (mkWorld (Db.mkTable (l1 ++ Db.merge a u :: l2)
                                  (Db.next_id (db w))) (console w))
             l1 (Db.merge a u) l2
             Ha (proj1 (wf_patched a _ _ _ _ E Hwf)) eq_refl Hl).
Qed.

(** ** The sync mutations *)

(** C1.  A valid payload for a subject id without a user record: after
    [upsertFromClerk], [userByClerkUserId] on that id returns a record whose
    email is the payload's first listed address, whose [clerkUserId] is the
    payload's id, and whose [firstname], [lastname] and [imageUrl] are the
    payload's, absent where the payload has [null] or nothing. *)
Theorem upsert_then_lookup_new_subject (data : UserJSON) (w : World) :
  valid_payload data ->
  unseen (id data) (db w) ->
  exists w' u,
    upsertFromClerk data w = Ok (tt, w') /\
    userByClerkUserId (id data) (db w') = Ok (Some u) /\
    mapped data u.
Proof.
  intros Hv Hu. destruct (valid_payload_attrs data Hv) as [a Ha].
  exists (mkWorld (snd (Db.insert a (db w))) (console w)),
         (Db.new_doc (Db.next_id (db w)) a).
  split; [now apply upsert_unseen|]. split.
  - apply userByClerkUserId_split with (l1 := Db.docs (db w)) (l2 := []);
      [reflexivity | | assumption | intros v []].
    simpl. now apply userAttributes_subject.
  - now apply mapped_attrs with (a := a).
Qed.

Lemma upsert_then_lookup_new_subject_witness :
  exists w' u,
    upsertFromClerk Sample.created Sample.without_u1 = Ok (tt, w') /\
    userByClerkUserId "u_1" (db w') = Ok (Some u) /\
    mapped Sample.created u.
Proof.
  apply (upsert_then_lookup_new_subject Sample.created Sample.without_u1).
  - unfold valid_payload. simpl. discriminate.
  - intros u [<-|[<-|[]]]; simpl; discriminate.
Defined.

(** C2.  A subject id that has a user record [u]: [upsertFromClerk] with a
    valid payload for it rewrites that record in place, with the five mapped
    fields taken from the payload and [_id] and [posts] as they were; no
    other record, the id counter and the console are left as they were. *)
Theorem upsert_existing_overwrites_mapped_fields
    (data : UserJSON) (w : World) (l1 l2 : list User) (u : User) :
  wf_table (db w) ->
  one_per_subject (db w) ->
  valid_payload data ->
  Db.docs (db w) = l1 ++ u :: l2 ->
  clerkUserId u = id data ->
  exists u',
    upsertFromClerk data w =
      Ok (tt, mkWorld (Db.mkTable (l1 ++ u' :: l2) (Db.next_id (db w)))
                      (console w)) /\
    mapped data u' /\
    posts u' = posts u /\
    _id u' = _id u.
Proof.
  intros Hwf Hinv Hv E Hc. destruct (valid_payload_attrs data Hv) as [a Ha].
  destruct (one_per_subject_split _ _ _ _ E Hinv) as [H1 H2].
  rewrite Hc in H1, H2.
  exists (Db.merge a u). split; [|split; [|split; reflexivity]].
  - apply upsert_seen; [assumption | exact (proj1 Hwf) | assumption |].
    now apply userByClerkUserId_split with (l1 := l1) (l2 := l2).
  - now apply mapped_attrs with (a := a).
Qed.

Lemma upsert_existing_overwrites_mapped_fields_witness :
  exists u',
    upsertFromClerk Sample.updated Sample.with_u1 =
      Ok (tt, mkWorld (Db.mkTable ([Sample.bob] ++ u' :: [Sample.cat]) 3) []) /\
    mapped Sample.updated u' /\
    posts u' = Some [7; 9] /\
    _id u' = 1.
Proof.
  apply (upsert_existing_overwrites_mapped_fields
           Sample.updated Sample.with_u1 [Sample.bob] [Sample.cat] Sample.ann).
  - split; simpl.
    + repeat constructor; simpl; intuition discriminate.
    + repeat constructor.
  - unfold one_per_subject. simpl.
    repeat constructor; simpl; intuition discriminate.
  - unfold valid_payload. simpl. discriminate.
  - reflexivity.
  - reflexivity.
Defined.

(** C3.  [upsertFromClerk] is idempotent: run twice in a row with the same
    payload, it leaves the world (the whole table, so also the record of
    that subject id) and the result of the lookup as one run does. *)
Theorem upsert_idempotent (data : UserJSON) (w : World) :
  wf_table (db w) ->
  (upsertFromClerk data ;;; upsertFromClerk data) w = upsertFromClerk data w /\
  runMutation (upsertFromClerk data) (runMutation (upsertFromClerk data) w) =
    runMutation (upsertFromClerk data) w /\
  userByClerkUserId (id data)
    (db (runMutation (upsertFromClerk data)
           (runMutation (upsertFromClerk data) w))) =
  userByClerkUserId (id data) (db (runMutation (upsertFromClerk data) w)).
Proof.
  intros Hwf.
  assert (Hrun : runMutation (upsertFromClerk data)
                   (runMutation (upsertFromClerk data) w) =
                 runMutation (upsertFromClerk data) w).
  { unfold runMutation at 2 3.
    destruct (upsertFromClerk data w) as [[[] w1]|e] eqn:H.
    - unfold runMutation.
      now rewrite (proj1 (upsert_fixed data w w1 Hwf H)).
    - unfold runMutation. now rewrite H. }
  split; [|split; [exact Hrun | now rewrite Hrun]].
  unfold bind. destruct (upsertFromClerk data w) as [[[] w1]|e] eqn:H.
  - exact (proj1 (upsert_fixed data w w1 Hwf H)).
  - reflexivity.
Qed.

Lemma upsert_idempotent_witness :
  (upsertFromClerk Sample.created ;;; upsertFromClerk Sample.created)
    Sample.without_u1 = upsertFromClerk Sample.created Sample.without_u1 /\
  runMutation (upsertFromClerk Sample.created)
    (runMutation (upsertFromClerk Sample.created) Sample.without_u1) =
    runMutation (upsertFromClerk Sample.created) Sample.without_u1 /\
  userByClerkUserId "u_1"
    (db (runMutation (upsertFromClerk Sample.created)
           (runMutation (upsertFromClerk Sample.created) Sample.without_u1))) =
  userByClerkUserId "u_1"
    (db (runMutation (upsertFromClerk Sample.created) Sample.without_u1)).
Proof.
  apply (upsert_idempotent Sample.created Sample.without_u1).
  split; simpl.
  - repeat constructor; simpl; intuition discriminate.
  - repeat constructor.
Defined.

(** C4.  After an [upsertFromClerk] for a subject id, [deleteFromClerk] on
    that id removes the record: no record of the table carries the id any
    more and [userByClerkUserId] returns [null]. *)
Theorem delete_after_upsert_removes (data : UserJSON) (w w1 : World) :
  wf_table (db w) ->
  upsertFromClerk data w = Ok (tt, w1) ->
  exists w2,
    deleteFromClerk (id data) w1 = Ok (tt, w2) /\
    unseen (id data) (db w2) /\
    userByClerkUserId (id data) (db w2) = Ok None.
Proof.
  intros Hwf H.
  assert (Hwf1 : wf_table (db w1)).
  { destruct (upsert_inv _ _ _ (proj1 Hwf) H) as (a & Ha & [[Hu ->]|Hp]).
    - simpl. now apply wf_insert.
    - destruct Hp as (l1 & u & l2 & E & _ & _ & _ & ->). simpl.
      now apply wf_patched. }
  destruct (upsert_fixed data w w1 Hwf H) as [_ [u Hu]].
  destruct (userByClerkUserId_Some _ _ _ Hu) as (l1 & l2 & E & Hc & H1 & H2).
  exists (mkWorld (Db.mkTable (l1 ++ l2) (Db.next_id (db w1))) (console w1)).
  assert (Hun : unseen (id data) (Db.mkTable (l1 ++ l2) (Db.next_id (db w1)))).
  { intros v Hv. simpl in Hv. apply in_app_or in Hv.
    destruct Hv; [now apply H1 | now apply H2]. }
  split; [|split].
  - now apply delete_seen with (u := u); [exact (proj1 Hwf1) | |].
  - exact Hun.
  - now apply userByClerkUserId_unseen.
Qed.

Lemma delete_after_upsert_removes_witness :
  exists w2,
    deleteFromClerk "u_1"
      (runMutation (upsertFromClerk Sample.updated) Sample.with_u1)
      = Ok (tt, w2) /\
    unseen "u_1" (db w2) /\
    userByClerkUserId "u_1" (db w2) = Ok None.
Proof.
  apply (delete_after_upsert_removes Sample.updated Sample.with_u1).
  - split; simpl.
    + repeat constructor; simpl; intuition discriminate.
    + repeat constructor.
  - reflexivity.
Defined.

(** C5.  [deleteFromClerk] on a subject id without a user record does not
    throw and leaves the table as it is; all it does is write its warning
    to the console. *)
Theorem delete_unknown_subject_is_noop (c : string) (w : World) :
  unseen c (db w) ->
  exists w',
    deleteFromClerk c w = Ok (tt, w') /\
    db w' = db w /\
    console w' =
      console w ++ [("Cannot delete user! No user with ID: " ++ c)%string].
Proof.
  intros Hu. eexists. split; [now apply delete_unseen|]. split; reflexivity.
Qed.

Lemma delete_unknown_subject_is_noop_witness :
  exists w',
    deleteFromClerk "u_1" Sample.without_u1 = Ok (tt, w') /\
    db w' = db Sample.without_u1 /\
    console w' = ["Cannot delete user! No user with ID: u_1"].
Proof.
  apply (delete_unknown_subject_is_noop "u_1" Sample.without_u1).
  intros u [<-|[<-|[]]]; simpl; discriminate.
Defined.

(** ** Queries *)

Lemma last_five (l : list User) :
  5 <= List.length l ->
  exists older u1 u2 u3 u4 u5, l = older ++ [u1; u2; u3; u4; u5].
Proof.
  intros H. exists (firstn (List.length l - 5) l).
  pose proof (firstn_skipn (List.length l - 5) l) as E.
  pose proof (length_skipn (List.length l - 5) l) as L.
  destruct (skipn (List.length l - 5) l) as [|u1 [|u2 [|u3 [|u4 [|u5 [|u6 r]]]]]];
    simpl in L; try lia.
  exists u1, u2, u3, u4, u5. now symmetry.
Qed.

(** C6.  [getRecentUsers] never returns more than 5 records; on a table of
    at least 5 users it returns exactly the 5 inserted last, the latest
    first. *)
Theorem getRecentUsers_latest_five (ctx : QueryCtx) :
  List.length (getRecentUsers ctx) <= 5 /\
  (5 <= List.length (Db.docs (qdb ctx)) ->
   exists older u1 u2 u3 u4 u5,
     Db.docs (qdb ctx) = older ++ [u1; u2; u3; u4; u5] /\
     getRecentUsers ctx = [u5; u4; u3; u2; u1]).
Proof.
  unfold getRecentUsers, Db.take, Db.order, Db.collect. split.
  - apply firstn_le_length.
  - intros H.
    destruct (last_five _ H) as (older & u1 & u2 & u3 & u4 & u5 & E).
    exists older, u1, u2, u3, u4, u5. split; [assumption|].
    rewrite E, rev_app_distr. reflexivity.
Qed.

Lemma getRecentUsers_latest_five_witness :
  exists older u1 u2 u3 u4 u5,
    Db.docs Sample.seven = older ++ [u1; u2; u3; u4; u5] /\
    getRecentUsers (Sample.signed_out Sample.seven) = [u5; u4; u3; u2; u1].
Proof.
  apply (proj2 (getRecentUsers_latest_five (Sample.signed_out Sample.seven))).
  simpl. lia.
Defined.

(** What is inserted last is listed first. *)
Lemma getRecentUsers_after_insert (a : UserAttributes) (o : option UserIdentity)
    (t : Db.Table) :
  hd_error (getRecentUsers (mkQueryCtx o (snd (Db.insert a t)))) =
    Some (Db.new_doc (Db.next_id t) a).
Proof.
  unfold getRecentUsers, Db.take, Db.order, Db.collect. simpl.
  rewrite rev_app_distr. reflexivity.
Qed.

Lemma getCurrentUser_no_user (ctx : QueryCtx) :
  no_current_user ctx -> getCurrentUser ctx = Ok None.
Proof.
  unfold no_current_user, getCurrentUser.
  destruct (auth ctx) as [i|]; [|reflexivity].
  apply userByClerkUserId_unseen.
Qed.

Lemma getCurrentUser_Some (ctx : QueryCtx) (u : User) :
  getCurrentUser ctx = Ok (Some u) ->
  exists i, auth ctx = Some i /\ In u (Db.docs (qdb ctx)) /\
            clerkUserId u = subject i.
Proof.
  unfold getCurrentUser. destruct (auth ctx) as [i|]; [|discriminate].
  intros H. exists i. split; [reflexivity|].
  destruct (userByClerkUserId_Some _ _ _ H) as (l1 & l2 & E & Hc & _).
  split; [|assumption]. rewrite E. apply in_or_app. right. now left.
Qed.

(** Under the invariant the caller either has no record or has one that the
    lookup returns. *)
Lemma getCurrentUser_cases (ctx : QueryCtx) :
  one_per_subject (qdb ctx) ->
  (no_current_user ctx /\ getCurrentUser ctx = Ok None) \/
  (~ no_current_user ctx /\ exists u, getCurrentUser ctx = Ok (Some u)).
Proof.
  intros Hinv. unfold no_current_user, getCurrentUser.
  destruct (auth ctx) as [i|]; [|now left].
  destruct (userByClerkUserId_total (subject i) _ Hinv) as [[u|] H].
  - right. split; [|eauto]. intros Hu.
    rewrite (userByClerkUserId_unseen _ _ Hu) in H. discriminate.
  - left. split; [now apply userByClerkUserId_None | assumption].
Qed.

(** C7.  [getCurrentUserOrThrow] throws exactly when the caller has no user
    record (nobody signed in, or no record for the subject id); in every
    other case it returns the record that [current] returns.  The table is
    one of the data model: at most one record per subject id. *)
Theorem getCurrentUserOrThrow_throws_iff_no_user (ctx : QueryCtx) :
  (no_current_user ctx ->
   getCurrentUserOrThrow ctx = Err (Error "Can't get current user")) /\
  (one_per_subject (qdb ctx) ->
   ((exists e, getCurrentUserOrThrow ctx = Err e) <-> no_current_user ctx) /\
   (~ no_current_user ctx ->
    exists u, getCurrentUserOrThrow ctx = Ok u /\ current ctx = Ok (Some u))).
Proof.
  unfold getCurrentUserOrThrow, current. split.
  - intros Hn. now rewrite (getCurrentUser_no_user ctx Hn).
  - intros Hinv.
    destruct (getCurrentUser_cases ctx Hinv) as [[Hn H]|[Hn [u H]]]; rewrite H.
    + split; [split; [auto | eauto] | intros K; now elim K].
    + split; [split|].
      * intros [e He]. discriminate.
      * intros K. now elim Hn.
      * intros _. eauto.
Qed.

Lemma getCurrentUserOrThrow_throws_iff_no_user_witness :
  (getCurrentUserOrThrow (Sample.signed_out (db Sample.with_u1)) =
     Err (Error "Can't get current user")) /\
  (getCurrentUserOrThrow (Sample.signed_in "u_7" (db Sample.with_u1)) =
     Err (Error "Can't get current user")) /\
  (exists u,
     getCurrentUserOrThrow (Sample.signed_in "u_1" (db Sample.with_u1)) = Ok u /\
     current (Sample.signed_in "u_1" (db Sample.with_u1)) = Ok (Some u)).
Proof.
  split; [|split].
  - apply (proj1 (getCurrentUserOrThrow_throws_iff_no_user
                    (Sample.signed_out (db Sample.with_u1)))).
    exact I.
  - apply (proj1 (getCurrentUserOrThrow_throws_iff_no_user
                    (Sample.signed_in "u_7" (db Sample.with_u1)))).
    intros u [<-|[<-|[<-|[]]]]; simpl; discriminate.
  - apply (proj2 (getCurrentUserOrThrow_throws_iff_no_user
                    (Sample.signed_in "u_1" (db Sample.with_u1)))).
    + unfold one_per_subject. simpl.
      repeat constructor; simpl; intuition discriminate.
    + intros K. apply (K Sample.ann); simpl; auto.
Defined.

(** C8.  [current] returns [null], and does not throw, when nobody is signed
    in or the subject id of the identity has no user record; otherwise it
    returns the record of the table whose [clerkUserId] is that subject id,
    which is what the [byClerkUserId] index yields (the table being one of
    the data model: at most one record per subject id). *)
Theorem current_null_or_indexed_record (ctx : QueryCtx) :
  (auth ctx = None -> current ctx = Ok None) /\
  (forall i, auth ctx = Some i -> unseen (subject i) (qdb ctx) ->
             current ctx = Ok None) /\
  (one_per_subject (qdb ctx) ->
   forall i u, auth ctx = Some i -> In u (Db.docs (qdb ctx)) ->
               clerkUserId u = subject i ->
               Db.withIndex_byClerkUserId (subject i) (qdb ctx) = [u] /\
               current ctx = Ok (Some u)).
Proof.
  unfold current, getCurrentUser. split; [|split].
  - intros ->. reflexivity.
  - intros i -> Hu. now apply userByClerkUserId_unseen.
  - intros Hinv i u -> Hin Hc.
    destruct (in_split _ _ Hin) as (l1 & l2 & E).
    destruct (one_per_subject_split _ _ _ _ E Hinv) as [H1 H2].
    rewrite Hc in H1, H2. split.
    + unfold Db.withIndex_byClerkUserId. rewrite E.
      apply filter_hit_split; [assumption | |]; now apply filter_hit_nil.
    + now apply userByClerkUserId_split with (l1 := l1) (l2 := l2).
Qed.

Lemma current_null_or_indexed_record_witness :
  current (Sample.signed_out (db Sample.with_u1)) = Ok None /\
  current (Sample.signed_in "u_7" (db Sample.with_u1)) = Ok None /\
  current (Sample.signed_in "u_1" (db Sample.with_u1)) = Ok (Some Sample.ann).
Proof.
  split; [|split].
  - apply (proj1 (current_null_or_indexed_record
                    (Sample.signed_out (db Sample.with_u1)))).
    reflexivity.
  - apply (proj1 (proj2 (current_null_or_indexed_record
                           (Sample.signed_in "u_7" (db Sample.with_u1))))
             (mkIdentity "u_7")); [reflexivity|].
    intros u [<-|[<-|[<-|[]]]]; simpl; discriminate.
  - refine (proj2 (proj2 (proj2 (current_null_or_indexed_record
                    (Sample.signed_in "u_1" (db Sample.with_u1))))
                  _ (mkIdentity "u_1") Sample.ann _ _ _)).
    + unfold one_per_subject. simpl.
      repeat constructor; simpl; intuition discriminate.
    + reflexivity.
    + simpl. auto.
    + reflexivity.
Defined.

(** Outside the invariant the lookup itself throws, and both queries pass
    that exception on. *)
Lemma current_on_doubled_subject :
  current (Sample.signed_in "u_1" Sample.doubled) = Err NotUniqueError /\
  getCurrentUserOrThrow (Sample.signed_in "u_1" Sample.doubled) =
    Err NotUniqueError.
Proof. split; reflexivity. Qed.

(** ** The invariant *)

(** Any number of calls keeps the table well formed and the invariant. *)
Lemma runCalls_keep (cs : list SyncCall) (w : World) :
  wf_table (db w) -> one_per_subject (db w) ->
  wf_table (db (runCalls cs w)) /\ one_per_subject (db (runCalls cs w)).
Proof.
  revert w. induction cs as [|c cs IH]; simpl; intros w Hwf Hinv.
  - now split.
  - destruct (runCall_keeps c w Hwf Hinv) as [Hwf' Hinv'].
    now apply IH.
Qed.

(** C9.  At most one user record per subject id is an invariant of the
    module under serial execution: from a table that satisfies it, every
    sequence of [upsertFromClerk] and [deleteFromClerk] runs ends in a table
    that satisfies it. *)
Theorem sync_calls_preserve_one_per_subject (cs : list SyncCall) (w : World) :
  wf_table (db w) ->
  one_per_subject (db w) ->
  one_per_subject (db (runCalls cs w)).
Proof.
  intros Hwf Hinv. now apply runCalls_keep.
Qed.

Lemma sync_calls_preserve_one_per_subject_witness :
  one_per_subject (db (runCalls Sample.calls Sample.without_u1)).
Proof.
  apply (sync_calls_preserve_one_per_subject Sample.calls Sample.without_u1).
  - split; simpl.
    + repeat constructor; simpl; intuition discriminate.
    + repeat constructor.
  - unfold one_per_subject. simpl.
    repeat constructor; simpl; intuition discriminate.
Defined.

(** The queries write nothing, and the table the module starts from is
    empty, so every table the sync calls reach satisfies the invariant. *)
Lemma reachable_one_per_subject (cs : list SyncCall) :
  one_per_subject (db (runCalls cs Sample.fresh)).
Proof. apply runCalls_keep; apply wf_empty. Qed.

(** ** The unguarded array access *)

(** C10.  [upsertFromClerk] reads the first element of [email_addresses]
    without a guard: on an empty list it throws before it reads or writes
    the table, whatever the table is; on a non-empty list the access
    succeeds, and the handler goes on to its insert branch (no record for
    the subject id) or its patch branch (the record found), the table being
    one of the data model. *)
Theorem upsert_first_email_access (data : UserJSON) (w : World) :
  (email_addresses data = [] -> upsertFromClerk data w = Err TypeError) /\
  (valid_payload data ->
   (exists a, userAttributes data = Ok a) /\
   upsertFromClerk data w <> Err TypeError) /\
  (valid_payload data -> one_per_subject (db w) ->
   exists a w',
     userAttributes data = Ok a /\
     upsertFromClerk data w = Ok (tt, w') /\
     ((userByClerkUserId (id data) (db w) = Ok None /\
       db w' = snd (Db.insert a (db w))) \/
      (exists u, userByClerkUserId (id data) (db w) = Ok (Some u) /\
                 Db.patch (_id u) a (db w) = Ok (db w')))).
Proof.
  split; [|split].
  - intros E. unfold upsertFromClerk, bind, lift, userAttributes.
    rewrite E. reflexivity.
  - intros Hv. destruct (valid_payload_attrs data Hv) as [a Ha].
    split; [eauto|].
    unfold upsertFromClerk, bind, lift, read, userByClerkUserId, Db.unique.
    rewrite Ha.
    destruct (Db.withIndex_byClerkUserId (id data) (db w)) as [|u [|v r]];
      [discriminate | | discriminate].
    unfold db_patch, Db.patch.
    destruct (Db.patch_docs (_id u) a (Db.docs (db w))); discriminate.
  - intros Hv Hinv. destruct (valid_payload_attrs data Hv) as [a Ha].
    exists a.
    destruct (userByClerkUserId_total (id data) _ Hinv) as [[u|] Hu].
    + destruct (userByClerkUserId_Some _ _ _ Hu) as (l1 & l2 & E & _).
      assert (Hin : In u (Db.docs (db w))).
      { rewrite E. apply in_or_app. right. now left. }
      destruct (patch_docs_In a _ _ Hin) as [l' Hp].
      exists (mkWorld (Db.mkTable l' (Db.next_id (db w))) (console w)).
      split; [assumption|]. split.
      * unfold upsertFromClerk, bind, lift, read, db_patch, Db.patch.
        rewrite Ha, Hu, Hp. reflexivity.
      * right. exists u. split; [assumption|].
        unfold Db.patch. rewrite Hp. reflexivity.
    + exists (mkWorld (snd (Db.insert a (db w))) (console w)).
      split; [assumption|]. split.
      * apply upsert_unseen; [assumption|].
        now apply userByClerkUserId_None.
      * left. split; [assumption | reflexivity].
Qed.

Lemma upsert_first_email_access_witness :
  upsertFromClerk Sample.no_email Sample.with_u1 = Err TypeError /\
  upsertFromClerk Sample.created Sample.with_u1 <> Err TypeError /\
  exists a w',
    userAttributes Sample.updated = Ok a /\
    upsertFromClerk Sample.updated Sample.with_u1 = Ok (tt, w') /\
    ((userByClerkUserId "u_1" (db Sample.with_u1) = Ok None /\
      db w' = snd (Db.insert a (db Sample.with_u1))) \/
     (exists u, userByClerkUserId "u_1" (db Sample.with_u1) = Ok (Some u) /\
                Db.patch (_id u) a (db Sample.with_u1) = Ok (db w'))).
Proof.
  split; [|split].
  - apply (proj1 (upsert_first_email_access Sample.no_email Sample.with_u1)).
    reflexivity.
  - apply (proj1 (proj2 (upsert_first_email_access
                           Sample.created Sample.with_u1))).
    unfold valid_payload. simpl. discriminate.
  - apply (proj2 (proj2 (upsert_first_email_access
                           Sample.updated Sample.with_u1))).
    + unfold valid_payload. simpl. discriminate.
    + unfold one_per_subject. simpl.
      repeat constructor; simpl; intuition discriminate.
Defined.

(** The access comes first: the empty list throws even where the lookup
    would. *)
Lemma upsert_no_email_on_doubled :
  upsertFromClerk (mkUserJSON [] "u_1" JsNull JsNull JsNull)
                  (mkWorld Sample.doubled []) = Err TypeError /\
  upsertFromClerk Sample.updated (mkWorld Sample.doubled []) =
    Err NotUniqueError.
Proof. split; reflexivity. Qed.

(** ** The scenario of the spec, run *)

Example scenario_insert :
  runMutation (upsertFromClerk Sample.created) Sample.fresh =
    mkWorld (Db.mkTable
               [mkUser 0 "a@example.com" "u_1" None None
                       (Some "https://img.example/1.png") None] 1) [].
Proof. reflexivity. Qed.

Example scenario_update :
  userByClerkUserId "u_1"
    (db (runCalls [CallUpsert Sample.created; CallUpsert Sample.updated]
                  Sample.fresh)) =
    Ok (Some (mkUser 0 "a@example.com" "u_1" (Some "Ann") None None None)).
Proof. reflexivity. Qed.

Example scenario_delete :
  userByClerkUserId "u_1"
    (db (runCalls [CallUpsert Sample.created; CallUpsert Sample.updated;
                   CallDelete "u_1"] Sample.fresh)) = Ok None.
Proof. reflexivity. Qed.

Example scenario_recent :
  map _id (getRecentUsers (Sample.signed_out Sample.seven)) = [6; 5; 4; 3; 2].
Proof. reflexivity. Qed.

(** * Further properties of the module *)

(** ** What a successful mutation leaves behind *)

Lemma runCall_wf (c : SyncCall) (w : World) :
  wf_table (db w) -> wf_table (db (runCall c w)).
Proof.
  intros Hwf. destruct c as [data|cid]; simpl; unfold runMutation.
  - destruct (upsertFromClerk data w) as [[[] w1]|e] eqn:H; [|assumption].
    destruct (upsert_inv _ _ _ (proj1 Hwf) H) as (a & Ha & [[Hu ->]|Hp]).
    + now apply wf_insert.
    + destruct Hp as (l1 & u & l2 & E & _ & _ & _ & ->). now apply wf_patched.
  - destruct (deleteFromClerk cid w) as [[[] w1]|e] eqn:H; [|assumption].
    destruct (delete_inv _ _ _ (proj1 Hwf) H) as [[_ ->]|Hd]; [assumption|].
    destruct Hd as (l1 & u & l2 & E & _ & _ & _ & ->).
    now apply wf_deleted with (u := u).
Qed.

Lemma runCalls_wf (cs : list SyncCall) (w : World) :
  wf_table (db w) -> wf_table (db (runCalls cs w)).
Proof.
  revert w. induction cs as [|c cs IH]; simpl; intros w Hwf; [assumption|].
  apply IH. now apply runCall_wf.
Qed.

(** After a successful upsert the table is well formed and the subject id
    has exactly one record, which carries the payload. *)
Lemma upsert_post (data : UserJSON) (w w1 : World) :
  wf_table (db w) ->
  upsertFromClerk data w = Ok (tt, w1) ->
  wf_table (db w1) /\
  exists u, userByClerkUserId (id data) (db w1) = Ok (Some u) /\
            mapped data u.
Proof.
  intros Hwf H. split.
  - pose proof (runCall_wf (CallUpsert data) w Hwf) as K.
    simpl in K. unfold runMutation in K. now rewrite H in K.
  - destruct (upsert_inv _ _ _ (proj1 Hwf) H) as (a & Ha & [[Hu ->]|Hp]).
    + exists (Db.new_doc (Db.next_id (db w)) a). split.
      * apply userByClerkUserId_split with (l1 := Db.docs (db w)) (l2 := []);
          [reflexivity | | assumption | intros v []].
        simpl. now apply userAttributes_subject.
      * now apply mapped_attrs with (a := a).
    + destruct Hp as (l1 & u & l2 & E & Hc & H1 & H2 & ->).
      exists (Db.merge a u). split.
      * apply userByClerkUserId_split with (l1 := l1) (l2 := l2);
          [reflexivity | | assumption | assumption].
        simpl. now apply userAttributes_subject.
      * now apply mapped_attrs with (a := a).
Qed.

Lemma upsert_Ok_valid (data : UserJSON) (w w1 : World) :
  upsertFromClerk data w = Ok (tt, w1) -> valid_payload data.
Proof.
  intros H E. unfold upsertFromClerk, bind, lift, userAttributes in H.
  rewrite E in H. discriminate.
Qed.

(** A valid payload on a table where the lookup does not throw goes
    through. *)
Lemma upsert_total (data : UserJSON) (w : World) (r : option User) :
  valid_payload data ->
  userByClerkUserId (id data) (db w) = Ok r ->
  exists w1, upsertFromClerk data w = Ok (tt, w1).
Proof.
  intros Hv Hr. destruct (valid_payload_attrs data Hv) as [a Ha].
  destruct r as [u|].
  - destruct (userByClerkUserId_Some _ _ _ Hr) as (l1 & l2 & E & _).
    assert (Hin : In u (Db.docs (db w))).
    { rewrite E. apply in_or_app. right. now left. }
    destruct (patch_docs_In a _ _ Hin) as [l' Hp].
    eexists. unfold upsertFromClerk, bind, lift, read, db_patch, Db.patch.
    rewrite Ha, Hr, Hp. reflexivity.
  - eexists. apply upsert_unseen; [eassumption|].
    now apply userByClerkUserId_None.
Qed.

(** ** Upsert seen through the queries *)

(** X1.  A valid payload for an unknown subject id adds exactly one record:
    [getUsers] afterwards is [getUsers] before followed by the new record,
    which carries the payload and owns no posts; [getRecentUsers] lists it
    first; nothing is written to the console. *)
Theorem upsert_new_subject_appends
    (data : UserJSON) (w : World) (o : option UserIdentity) :
  valid_payload data ->
  unseen (id data) (db w) ->
  exists w' u,
    upsertFromClerk data w = Ok (tt, w') /\
    getUsers (mkQueryCtx o (db w')) = getUsers (mkQueryCtx o (db w)) ++ [u] /\
    hd_error (getRecentUsers (mkQueryCtx o (db w'))) = Some u /\
    mapped data u /\ posts u = None /\
    console w' = console w.
Proof.
  intros Hv Hu. destruct (valid_payload_attrs data Hv) as [a Ha].
  exists (mkWorld (snd (Db.insert a (db w))) (console w)),
         (Db.new_doc (Db.next_id (db w)) a).
  split; [now apply upsert_unseen|].
  split; [reflexivity|]. split.
  - unfold getRecentUsers, Db.take, Db.order, Db.collect. simpl.
    rewrite rev_app_distr. reflexivity.
  - split; [now apply mapped_attrs with (a := a) | split; reflexivity].
Qed.

Lemma upsert_new_subject_appends_witness :
  exists w' u,
    upsertFromClerk Sample.created Sample.without_u1 = Ok (tt, w') /\
    getUsers (mkQueryCtx None (db w')) =
      getUsers (mkQueryCtx None (db Sample.without_u1)) ++ [u] /\
    hd_error (getRecentUsers (mkQueryCtx None (db w'))) = Some u /\
    mapped Sample.created u /\ posts u = None /\
    console w' = console Sample.without_u1.
Proof.
  apply (upsert_new_subject_appends Sample.created Sample.without_u1 None).
  - unfold valid_payload. simpl. discriminate.
  - intros u [<-|[<-|[]]]; simpl; discriminate.
Defined.

(** X2.  Whenever [upsertFromClerk] returns, the caller signed in with the
    payload's subject id has a record: [current] returns it,
    [getCurrentUserOrThrow] returns the same one, and it carries the
    payload. *)
Theorem upsert_then_current (data : UserJSON) (w w1 : World) :
  wf_table (db w) ->
  upsertFromClerk data w = Ok (tt, w1) ->
  exists u,
    current (signed_in_as (id data) (db w1)) = Ok (Some u) /\
    getCurrentUserOrThrow (signed_in_as (id data) (db w1)) = Ok u /\
    mapped data u.
Proof.
  intros Hwf H. destruct (upsert_post data w w1 Hwf H) as [_ (u & Hu & Hm)].
  exists u. unfold current, getCurrentUserOrThrow, getCurrentUser. simpl.
  rewrite Hu. auto.
Qed.

Lemma upsert_then_current_witness :
  exists u,
    current (signed_in_as "u_1"
               (db (runMutation (upsertFromClerk Sample.updated)
                                Sample.with_u1))) = Ok (Some u) /\
    getCurrentUserOrThrow
      (signed_in_as "u_1"
         (db (runMutation (upsertFromClerk Sample.updated) Sample.with_u1)))
      = Ok u /\
    mapped Sample.updated u.
Proof.
  apply (upsert_then_current Sample.updated Sample.with_u1).
  - split; simpl.
    + repeat constructor; simpl; intuition discriminate.
    + repeat constructor.
  - reflexivity.
Defined.

(** X3.  The last write wins: after an upsert for a subject id, a second
    upsert with another valid payload for the same id goes through, and the
    record found afterwards carries the second payload; it is the record of
    the first upsert, with its [_id] and [posts]. *)
Theorem upsert_last_write_wins (d1 d2 : UserJSON) (w w1 : World) (u1 : User) :
  wf_table (db w) ->
  upsertFromClerk d1 w = Ok (tt, w1) ->
  userByClerkUserId (id d1) (db w1) = Ok (Some u1) ->
  valid_payload d2 ->
  id d2 = id d1 ->
  exists w2 u2,
    upsertFromClerk d2 w1 = Ok (tt, w2) /\
    userByClerkUserId (id d1) (db w2) = Ok (Some u2) /\
    mapped d2 u2 /\ _id u2 = _id u1 /\ posts u2 = posts u1 /\
    List.length (Db.docs (db w2)) = List.length (Db.docs (db w1)).
Proof.
  intros Hwf H1 Hu1 Hv Hid.
  destruct (upsert_post d1 w w1 Hwf H1) as [Hwf1 _].
  destruct (valid_payload_attrs d2 Hv) as [a Ha].
  destruct (userByClerkUserId_Some _ _ _ Hu1) as (l1 & l2 & E & Hc & K1 & K2).
  rewrite <- Hid in Hu1, Hc, K1, K2.
  exists (mkWorld (Db.mkTable (l1 ++ Db.merge a u1 :: l2) (Db.next_id (db w1)))
                  (console w1)), (Db.merge a u1).
  split; [now apply upsert_seen; [| exact (proj1 Hwf1) | |]|].
  rewrite <- Hid. split.
  - apply userByClerkUserId_split with (l1 := l1) (l2 := l2);
      [reflexivity | | assumption | assumption].
    simpl. now apply userAttributes_subject.
  - split; [now apply mapped_attrs with (a := a)|].
    split; [reflexivity|]. split; [reflexivity|].
    simpl. rewrite E, !length_app. reflexivity.
Qed.

Lemma upsert_last_write_wins_witness :
  exists w2 u2,
    upsertFromClerk Sample.updated
      (runMutation (upsertFromClerk Sample.created) Sample.without_u1)
      = Ok (tt, w2) /\
    userByClerkUserId "u_1" (db w2) = Ok (Some u2) /\
    mapped Sample.updated u2 /\ _id u2 = 3 /\ posts u2 = None /\
    List.length (Db.docs (db w2)) = 3.
Proof.
  apply (upsert_last_write_wins Sample.created Sample.updated
           Sample.without_u1
           (runMutation (upsertFromClerk Sample.created) Sample.without_u1)
           (mkUser 3 "a@example.com" "u_1" None None
                   (Some "https://img.example/1.png") None)).
  - split; simpl.
    + repeat constructor; simpl; intuition discriminate.
    + repeat constructor.
  - reflexivity.
  - reflexivity.
  - unfold valid_payload. simpl. discriminate.
  - reflexivity.
Defined.

(** X4.  An update does not move a user: when the subject id has a record,
    a successful upsert leaves the sequence of document ids of [getUsers]
    and of [getRecentUsers] as it was, so an updated user does not become a
    recent one. *)
Theorem upsert_existing_keeps_order
    (data : UserJSON) (w w1 : World) (u : User) (o : option UserIdentity) :
  wf_table (db w) ->
  userByClerkUserId (id data) (db w) = Ok (Some u) ->
  upsertFromClerk data w = Ok (tt, w1) ->
  map _id (getUsers (mkQueryCtx o (db w1))) =
    map _id (getUsers (mkQueryCtx o (db w))) /\
  map _id (getRecentUsers (mkQueryCtx o (db w1))) =
    map _id (getRecentUsers (mkQueryCtx o (db w))).
Proof.
  intros Hwf Hu H.
  destruct (valid_payload_attrs data (upsert_Ok_valid _ _ _ H)) as [a Ha].
  destruct (userByClerkUserId_Some _ _ _ Hu) as (l1 & l2 & E & _).
  rewrite (upsert_seen _ _ _ _ _ _ Ha (proj1 Hwf) E Hu) in H.
  injection H as <-.
  assert (K : map _id (l1 ++ Db.merge a u :: l2) = map _id (Db.docs (db w))).
  { now rewrite E, map_id_merge. }
  unfold getUsers, getRecentUsers, Db.take, Db.order, Db.collect.
  cbn [qdb db Db.docs].
  split; [exact K|].
  now rewrite <- !firstn_map, !map_rev, K.
Qed.

Lemma upsert_existing_keeps_order_witness :
  map _id (getUsers (mkQueryCtx None
             (db (runMutation (upsertFromClerk Sample.updated)
                              Sample.with_u1)))) =
    map _id (getUsers (mkQueryCtx None (db Sample.with_u1))) /\
  map _id (getRecentUsers (mkQueryCtx None
             (db (runMutation (upsertFromClerk Sample.updated)
                              Sample.with_u1)))) =
    map _id (getRecentUsers (mkQueryCtx None (db Sample.with_u1))).
Proof.
  apply (upsert_existing_keeps_order Sample.updated Sample.with_u1
           (runMutation (upsertFromClerk Sample.updated) Sample.with_u1)
           Sample.ann None).
  - split; simpl.
    + repeat constructor; simpl; intuition discriminate.
    + repeat constructor.
  - reflexivity.
  - reflexivity.
Defined.

(** ** Other subject ids are left alone *)

Lemma withIndex_app_miss (c : string) (l1 l2 : list User) (u : User) :
  clerkUserId u <> c ->
  filter (fun v => String.eqb (clerkUserId v) c) (l1 ++ u :: l2) =
  filter (fun v => String.eqb (clerkUserId v) c) (l1 ++ l2).
Proof.
  intros H. rewrite !filter_app. simpl.
  apply String.eqb_neq in H. now rewrite H.
Qed.

Lemma runCall_frame (c' : string) (c : SyncCall) (w : World) :
  wf_table (db w) ->
  call_subject c <> c' ->
  Db.withIndex_byClerkUserId c' (db (runCall c w)) =
  Db.withIndex_byClerkUserId c' (db w).
Proof.
  intros Hwf Hne. unfold Db.withIndex_byClerkUserId.
  destruct c as [data|cid]; simpl in *; unfold runMutation.
  - destruct (upsertFromClerk data w) as [[[] w1]|e] eqn:H; [|reflexivity].
    destruct (upsert_inv _ _ _ (proj1 Hwf) H) as (a & Ha & [[Hu ->]|Hp]).
    + simpl. rewrite <- (app_nil_r (Db.docs (db w))) at 2.
      apply withIndex_app_miss. simpl.
      now rewrite (userAttributes_subject _ _ Ha).
    + destruct Hp as (l1 & u & l2 & E & Hc & _ & _ & ->). simpl.
      rewrite E, !withIndex_app_miss; [reflexivity | congruence |].
      simpl. now rewrite (userAttributes_subject _ _ Ha).
  - destruct (deleteFromClerk cid w) as [[[] w1]|e] eqn:H; [|reflexivity].
    destruct (delete_inv _ _ _ (proj1 Hwf) H) as [[_ ->]|Hd]; [reflexivity|].
    destruct Hd as (l1 & u & l2 & E & Hc & _ & _ & ->). simpl.
    rewrite E, withIndex_app_miss; [reflexivity | congruence].
Qed.

(** X5.  Calls about other subject ids do not touch a user: when no call of
    a sequence of sync calls is about subject id [c'], the records the index
    holds for [c'], and so the result of the lookup, are after the sequence
    what they were before (whether the calls went through or threw). *)
Theorem sync_calls_frame (c' : string) (cs : list SyncCall) (w : World) :
  wf_table (db w) ->
  Forall (fun c => call_subject c <> c') cs ->
  Db.withIndex_byClerkUserId c' (db (runCalls cs w)) =
    Db.withIndex_byClerkUserId c' (db w) /\
  userByClerkUserId c' (db (runCalls cs w)) = userByClerkUserId c' (db w).
Proof.
  intros Hwf Hcs.
  assert (K : Db.withIndex_byClerkUserId c' (db (runCalls cs w)) =
              Db.withIndex_byClerkUserId c' (db w)).
  { revert w Hwf. induction Hcs as [|c cs Hc Hcs IH]; simpl; intros w Hwf.
    - reflexivity.
    - rewrite IH; [now apply runCall_frame | now apply runCall_wf]. }
  split; [exact K|]. unfold userByClerkUserId. now rewrite K.
Qed.

Lemma sync_calls_frame_witness :
  Db.withIndex_byClerkUserId "u_2" (db (runCalls Sample.calls Sample.with_u1)) =
    [Sample.cat] /\
  userByClerkUserId "u_2" (db (runCalls Sample.calls Sample.with_u1)) =
    Ok (Some Sample.cat).
Proof.
  apply (sync_calls_frame "u_2" Sample.calls Sample.with_u1).
  - split; simpl.
    + repeat constructor; simpl; intuition discriminate.
    + repeat constructor.
  - repeat constructor; simpl; discriminate.
Defined.

(** ** The recent users *)

(** X6.  [getRecentUsers] returns the first [min 5 N] records of [getUsers]
    read backwards, [N] being the number of users; with at most 5 users it
    returns all of them, newest first, and on an empty table the empty
    list. *)
Theorem getRecentUsers_prefix_of_reversed (ctx : QueryCtx) :
  List.length (getRecentUsers ctx) = Nat.min 5 (List.length (getUsers ctx)) /\
  (exists rest, rev (getUsers ctx) = getRecentUsers ctx ++ rest) /\
  (List.length (getUsers ctx) <= 5 ->
   getRecentUsers ctx = rev (getUsers ctx)) /\
  (forall u, In u (getRecentUsers ctx) -> In u (getUsers ctx)).
Proof.
  unfold getRecentUsers, getUsers, Db.take, Db.order.
  set (l := Db.collect (qdb ctx)).
  split; [|split; [|split]].
  - now rewrite length_firstn, length_rev.
  - exists (skipn 5 (rev l)). symmetry. apply firstn_skipn.
  - intros H. apply firstn_all2. now rewrite length_rev.
  - intros u Hu. apply in_rev.
    rewrite <- (firstn_skipn 5 (rev l)). apply in_or_app. now left.
Qed.

Lemma getRecentUsers_prefix_of_reversed_witness :
  getRecentUsers (mkQueryCtx None (db Sample.with_u1)) =
    [Sample.cat; Sample.ann; Sample.bob].
Proof.
  apply (proj1 (proj2 (proj2 (getRecentUsers_prefix_of_reversed
                                (mkQueryCtx None (db Sample.with_u1)))))).
  simpl. lia.
Defined.

(** ** Delete *)

(** X7.  When the subject id has a record, [deleteFromClerk] removes that
    record and nothing else: the other records stay, in their order, the
    number of users goes down by one, and nothing is written to the
    console. *)
Theorem delete_removes_only_that_record (c : string) (w : World) (u : User) :
  wf_table (db w) ->
  userByClerkUserId c (db w) = Ok (Some u) ->
  exists l1 l2 w',
    Db.docs (db w) = l1 ++ u :: l2 /\
    deleteFromClerk c w = Ok (tt, w') /\
    Db.docs (db w') = l1 ++ l2 /\
    S (List.length (Db.docs (db w'))) = List.length (Db.docs (db w)) /\
    console w' = console w.
Proof.
  intros Hwf Hu.
  destruct (userByClerkUserId_Some _ _ _ Hu) as (l1 & l2 & E & _).
  exists l1, l2,
    (mkWorld (Db.mkTable (l1 ++ l2) (Db.next_id (db w))) (console w)).
  split; [assumption|].
  split; [now apply delete_seen with (u := u); [exact (proj1 Hwf) | |]|].
  split; [reflexivity|]. split; [|reflexivity].
  simpl. rewrite E, !length_app. simpl. lia.
Qed.

Lemma delete_removes_only_that_record_witness :
  exists l1 l2 w',
    Db.docs (db Sample.with_u1) = l1 ++ Sample.ann :: l2 /\
    deleteFromClerk "u_1" Sample.with_u1 = Ok (tt, w') /\
    Db.docs (db w') = l1 ++ l2 /\
    S (List.length (Db.docs (db w'))) = 3 /\
    console w' = [].
Proof.
  apply (delete_removes_only_that_record "u_1" Sample.with_u1 Sample.ann).
  - split; simpl.
    + repeat constructor; simpl; intuition discriminate.
    + repeat constructor.
  - reflexivity.
Defined.

Lemma delete_post (c : string) (w w' : World) :
  wf_table (db w) ->
  deleteFromClerk c w = Ok (tt, w') ->
  wf_table (db w') /\ unseen c (db w').
Proof.
  intros Hwf H. split.
  - pose proof (runCall_wf (CallDelete c) w Hwf) as K.
    simpl in K. unfold runMutation in K. now rewrite H in K.
  - destruct (delete_inv _ _ _ (proj1 Hwf) H) as [[Hu ->]|Hd]; [assumption|].
    destruct Hd as (l1 & u & l2 & E & Hc & H1 & H2 & ->).
    intros v Hv. simpl in Hv. apply in_app_or in Hv.
    destruct Hv; [now apply H1 | now apply H2].
Qed.

(** X8.  Whenever [deleteFromClerk] returns, the subject id has no record
    left: for a caller signed in with it [current] returns [null] and
    [getCurrentUserOrThrow] throws its error. *)
Theorem delete_then_no_current_user (c : string) (w w' : World) :
  wf_table (db w) ->
  deleteFromClerk c w = Ok (tt, w') ->
  unseen c (db w') /\
  current (signed_in_as c (db w')) = Ok None /\
  getCurrentUserOrThrow (signed_in_as c (db w')) =
    Err (Error "Can't get current user").
Proof.
  intros Hwf H. destruct (delete_post c w w' Hwf H) as [_ Hu].
  split; [assumption|].
  unfold current, getCurrentUserOrThrow, getCurrentUser. simpl.
  rewrite (userByClerkUserId_unseen _ _ Hu). split; reflexivity.
Qed.

Lemma delete_then_no_current_user_witness :
  unseen "u_1" (db (runMutation (deleteFromClerk "u_1") Sample.with_u1)) /\
  current (signed_in_as "u_1"
             (db (runMutation (deleteFromClerk "u_1") Sample.with_u1)))
    = Ok None /\
  getCurrentUserOrThrow
    (signed_in_as "u_1"
       (db (runMutation (deleteFromClerk "u_1") Sample.with_u1)))
    = Err (Error "Can't get current user").
Proof.
  apply (delete_then_no_current_user "u_1" Sample.with_u1).
  - split; simpl.
    + repeat constructor; simpl; intuition discriminate.
    + repeat constructor.
  - reflexivity.
Defined.

(** X9.  A repeated delete is harmless: after [deleteFromClerk] has
    returned, running it again for the same subject id returns too, leaves
    the table as it is and only adds the warning to the console. *)
Theorem delete_twice_warns (c : string) (w w1 : World) :
  wf_table (db w) ->
  deleteFromClerk c w = Ok (tt, w1) ->
  deleteFromClerk c w1 =
    Ok (tt, mkWorld (db w1)
              (console w1 ++
               [("Cannot delete user! No user with ID: " ++ c)%string])).
Proof.
  intros Hwf H. destruct (delete_post c w w1 Hwf H) as [_ Hu].
  now apply delete_unseen.
Qed.

Lemma delete_twice_warns_witness :
  deleteFromClerk "u_1" (runMutation (deleteFromClerk "u_1") Sample.with_u1) =
    Ok (tt, mkWorld (Db.mkTable [Sample.bob; Sample.cat] 3)
              ["Cannot delete user! No user with ID: u_1"]).
Proof.
  apply (delete_twice_warns "u_1" Sample.with_u1).
  - split; simpl.
    + repeat constructor; simpl; intuition discriminate.
    + repeat constructor.
  - reflexivity.
Defined.

(** X10.  Deleting a user and syncing the same subject id again does not
    bring the old record back: the upsert inserts a new document, with a
    new [_id], the payload's fields and no [posts], and [getRecentUsers]
    lists it first. *)
Theorem delete_then_upsert_starts_afresh
    (data : UserJSON) (w : World) (u : User) :
  wf_table (db w) ->
  userByClerkUserId (id data) (db w) = Ok (Some u) ->
  valid_payload data ->
  exists w1 w2 u',
    deleteFromClerk (id data) w = Ok (tt, w1) /\
    upsertFromClerk data w1 = Ok (tt, w2) /\
    userByClerkUserId (id data) (db w2) = Ok (Some u') /\
    mapped data u' /\ posts u' = None /\ _id u' <> _id u /\
    hd_error (getRecentUsers (signed_in_as (id data) (db w2))) = Some u'.
Proof.
  intros Hwf Hu Hv.
  destruct (userByClerkUserId_Some _ _ _ Hu) as (l1 & l2 & E & Hc & H1 & H2).
  destruct (valid_payload_attrs data Hv) as [a Ha].
  set (w1 := mkWorld (Db.mkTable (l1 ++ l2) (Db.next_id (db w))) (console w)).
  assert (Hd : deleteFromClerk (id data) w = Ok (tt, w1)).
  { now apply delete_seen with (u := u); [exact (proj1 Hwf) | |]. }
  destruct (delete_post _ _ _ Hwf Hd) as [Hwf1 Hun].
  exists w1, (mkWorld (snd (Db.insert a (db w1))) (console w1)),
         (Db.new_doc (Db.next_id (db w)) a).
  split; [exact Hd|]. split; [now apply upsert_unseen|]. split.
  - apply userByClerkUserId_split with (l1 := l1 ++ l2) (l2 := []);
      [reflexivity | | exact Hun | intros v []].
    simpl. now apply userAttributes_subject.
  - split; [now apply mapped_attrs with (a := a)|].
    split; [reflexivity|]. split.
    + simpl. destruct Hwf as [_ Hlt]. rewrite Forall_forall in Hlt.
      assert (Hin : In u (Db.docs (db w))).
      { rewrite E. apply in_or_app. right. now left. }
      specialize (Hlt u Hin). lia.
    + unfold getRecentUsers, Db.take, Db.order, Db.collect. simpl.
      rewrite rev_app_distr. reflexivity.
Qed.

Lemma delete_then_upsert_starts_afresh_witness :
  exists w1 w2 u',
    deleteFromClerk "u_1" Sample.with_u1 = Ok (tt, w1) /\
    upsertFromClerk Sample.updated w1 = Ok (tt, w2) /\
    userByClerkUserId "u_1" (db w2) = Ok (Some u') /\
    mapped Sample.updated u' /\ posts u' = None /\ _id u' <> 1 /\
    hd_error (getRecentUsers (signed_in_as "u_1" (db w2))) = Some u'.
Proof.
  apply (delete_then_upsert_starts_afresh Sample.updated Sample.with_u1
           Sample.ann).
  - split; simpl.
    + repeat constructor; simpl; intuition discriminate.
    + repeat constructor.
  - reflexivity.
  - unfold valid_payload. simpl. discriminate.
Defined.

(** ** A subject id with several records *)

Lemma unique_two (xs ys zs : list User) (u v : User) :
  Db.unique (xs ++ u :: ys ++ v :: zs) = Err NotUniqueError.
Proof.
  destruct xs as [|x [|x' xs]]; simpl; try reflexivity;
    destruct ys; reflexivity.
Qed.

Lemma withIndex_two (c : string) (l1 l2 l3 : list User) (u v : User) :
  clerkUserId u = c -> clerkUserId v = c ->
  Db.unique (filter (fun x => String.eqb (clerkUserId x) c)
                    (l1 ++ u :: l2 ++ v :: l3)) = Err NotUniqueError.
Proof.
  intros Hu Hv. apply String.eqb_eq in Hu, Hv.
  rewrite filter_app. simpl. rewrite Hu, filter_app. simpl. rewrite Hv.
  apply unique_two.
Qed.

(** X11.  Two records with one subject id are never repaired by the module:
    the lookup for that id throws, and so do [current],
    [getCurrentUserOrThrow], [deleteFromClerk] and, for every payload with
    an email address, [upsertFromClerk]; neither mutation writes
    anything. *)
Theorem duplicated_subject_throws
    (c : string) (w : World) (l1 l2 l3 : list User) (u v : User) :
  Db.docs (db w) = l1 ++ u :: l2 ++ v :: l3 ->
  clerkUserId u = c ->
  clerkUserId v = c ->
  userByClerkUserId c (db w) = Err NotUniqueError /\
  current (signed_in_as c (db w)) = Err NotUniqueError /\
  getCurrentUserOrThrow (signed_in_as c (db w)) = Err NotUniqueError /\
  deleteFromClerk c w = Err NotUniqueError /\
  runMutation (deleteFromClerk c) w = w /\
  (forall data, valid_payload data -> id data = c ->
                upsertFromClerk data w = Err NotUniqueError /\
                runMutation (upsertFromClerk data) w = w).
Proof.
  intros E Hu Hv.
  assert (K : userByClerkUserId c (db w) = Err NotUniqueError).
  { unfold userByClerkUserId, Db.withIndex_byClerkUserId. rewrite E.
    now apply withIndex_two. }
  assert (D : deleteFromClerk c w = Err NotUniqueError).
  { unfold deleteFromClerk, bind, read. now rewrite K. }
  split; [exact K|].
  unfold current, getCurrentUserOrThrow, getCurrentUser, runMutation. simpl.
  rewrite K, D. do 4 (split; [reflexivity|]).
  intros data Hvd Hid. destruct (valid_payload_attrs data Hvd) as [a Ha].
  assert (U : upsertFromClerk data w = Err NotUniqueError).
  { unfold upsertFromClerk, bind, lift, read. now rewrite Ha, Hid, K. }
  now rewrite U.
Qed.

Lemma duplicated_subject_throws_witness :
  userByClerkUserId "u_1" Sample.doubled = Err NotUniqueError /\
  deleteFromClerk "u_1" (mkWorld Sample.doubled []) = Err NotUniqueError /\
  upsertFromClerk Sample.updated (mkWorld Sample.doubled []) =
    Err NotUniqueError.
Proof.
  pose proof (duplicated_subject_throws "u_1" (mkWorld Sample.doubled [])
                [] [] [] Sample.ann
                (Sample.user 5 "other@example.com" "u_1" None)
                eq_refl eq_refl eq_refl) as (K & _ & _ & D & _ & U).
  split; [exact K|]. split; [exact D|].
  apply U; [unfold valid_payload; simpl; discriminate | reflexivity].
Defined.

Lemma filter_hit_le1_NoDup (l : list User) :
  (forall c, List.length
               (filter (fun u => String.eqb (clerkUserId u) c) l) <= 1) ->
  NoDup (map clerkUserId l).
Proof.
  induction l as [|v l IH]; simpl; intros H; [constructor|].
  constructor.
  - intros Hin. apply in_map_iff in Hin. destruct Hin as (v' & Hc & Hv').
    specialize (H (clerkUserId v)). rewrite String.eqb_refl in H. simpl in H.
    assert (K : In v' (filter (fun u => String.eqb (clerkUserId u)
                                          (clerkUserId v)) l)).
    { apply filter_In. split; [assumption | now apply String.eqb_eq]. }
    destruct (filter _ l); [destruct K | simpl in H; lia].
  - apply IH. intros c. specialize (H c).
    destruct (String.eqb (clerkUserId v) c); simpl in H; lia.
Qed.

(** X12.  The lookup is as reliable as the invariant: [userByClerkUserId]
    returns (a record or [null]) for every subject id exactly when the
    table has at most one record per subject id. *)
Theorem lookup_never_throws_iff_one_per_subject (t : Db.Table) :
  (forall c, exists r, userByClerkUserId c t = Ok r) <-> one_per_subject t.
Proof.
  split.
  - intros H. apply filter_hit_le1_NoDup. intros c.
    destruct (H c) as [r Hr].
    unfold userByClerkUserId, Db.withIndex_byClerkUserId in Hr.
    destruct (filter _ _) as [|a [|b l]]; simpl in *; try lia. discriminate.
  - intros H c. now apply userByClerkUserId_total.
Qed.

Lemma lookup_never_throws_iff_one_per_subject_witness :
  exists r, userByClerkUserId "u_1" (db Sample.with_u1) = Ok r.
Proof.
  refine (proj2 (lookup_never_throws_iff_one_per_subject (db Sample.with_u1))
                _ "u_1").
  unfold one_per_subject. simpl.
  repeat constructor; simpl; intuition discriminate.
Defined.

(** ** What the sync mutations never do *)

Lemma patch_docs_ids (i : Id) (a : UserAttributes) (l l' : list User) :
  Db.patch_docs i a l = Some l' ->
  map _id l' = map _id l /\ map posts l' = map posts l.
Proof.
  revert l'. induction l as [|v l IH]; simpl; intros l' H; [discriminate|].
  destruct (Nat.eqb (_id v) i).
  - injection H as <-. split; reflexivity.
  - destruct (Db.patch_docs i a l) as [r|]; [|discriminate].
    injection H as <-. destruct (IH r eq_refl) as [H1 H2].
    simpl. now rewrite H1, H2.
Qed.

(** X13.  On any table, whatever its state, a returning [upsertFromClerk]
    writes nothing to the console and removes no document: the document ids
    are those of before, in the same order, or those followed by one new
    id; and the [posts] of the documents of before are what they were. *)
Theorem upsert_never_logs_nor_removes (data : UserJSON) (w w' : World) :
  upsertFromClerk data w = Ok (tt, w') ->
  console w' = console w /\
  ((map _id (Db.docs (db w')) = map _id (Db.docs (db w)) /\
    map posts (Db.docs (db w')) = map posts (Db.docs (db w))) \/
   (map _id (Db.docs (db w')) =
      map _id (Db.docs (db w)) ++ [Db.next_id (db w)] /\
    map posts (Db.docs (db w')) = map posts (Db.docs (db w)) ++ [None])).
Proof.
  unfold upsertFromClerk, bind, lift, read.
  destruct (userAttributes data) as [a|e]; [|discriminate].
  destruct (userByClerkUserId (id data) (db w)) as [[u|]|e]; [| |discriminate].
  - unfold db_patch, Db.patch.
    destruct (Db.patch_docs (_id u) a (Db.docs (db w))) as [l|] eqn:P;
      [|discriminate].
    intros H. injection H as <-. simpl. split; [reflexivity|]. left.
    now apply patch_docs_ids with (i := _id u) (a := a).
  - unfold db_insert, ret. simpl. intros H. injection H as <-. simpl.
    split; [reflexivity|]. right. rewrite !map_app. split; reflexivity.
Qed.

Lemma upsert_never_logs_nor_removes_witness :
  console (runMutation (upsertFromClerk Sample.created) Sample.with_u1) = [] /\
  ((map _id (Db.docs (db (runMutation (upsertFromClerk Sample.created)
                                      Sample.with_u1))) =
      map _id (Db.docs (db Sample.with_u1)) /\
    map posts (Db.docs (db (runMutation (upsertFromClerk Sample.created)
                                        Sample.with_u1))) =
      map posts (Db.docs (db Sample.with_u1))) \/
   (map _id (Db.docs (db (runMutation (upsertFromClerk Sample.created)
                                      Sample.with_u1))) =
      map _id (Db.docs (db Sample.with_u1)) ++ [3] /\
    map posts (Db.docs (db (runMutation (upsertFromClerk Sample.created)
                                        Sample.with_u1))) =
      map posts (Db.docs (db Sample.with_u1)) ++ [None])).
Proof.
  apply (upsert_never_logs_nor_removes Sample.created Sample.with_u1).
  reflexivity.
Defined.



(** One call either keeps a document with its posts or makes a new one
    without posts. *)
Lemma runCall_posts (c : SyncCall) (w : World) (u' : User) :
  wf_table (db w) ->
  In u' (Db.docs (db (runCall c w))) ->
  posts u' = None \/
  exists u, In u (Db.docs (db w)) /\ _id u = _id u' /\ posts u = posts u'.
Proof.
  intros Hwf Hin. destruct c as [data|cid]; simpl in Hin;
    unfold runMutation in Hin.
  - destruct (upsertFromClerk data w) as [[[] w1]|e] eqn:H; [|right; eauto].
    destruct (upsert_inv _ _ _ (proj1 Hwf) H) as (a & Ha & [[Hu ->]|Hp]).
    + simpl in Hin. apply in_app_or in Hin. destruct Hin as [Hin|[<-|[]]].
      * right. eauto.
      * left. reflexivity.
    + destruct Hp as (l1 & u & l2 & E & _ & _ & _ & ->). simpl in Hin.
      right. apply in_app_or in Hin. destruct Hin as [Hin|[<-|Hin]].
      * exists u'. rewrite E. split; [apply in_or_app; now left | auto].
      * exists u. rewrite E.
        split; [apply in_or_app; right; now left | auto].
      * exists u'. rewrite E.
        split; [apply in_or_app; right; now right | auto].
  - destruct (deleteFromClerk cid w) as [[[] w1]|e] eqn:H; [|right; eauto].
    destruct (delete_inv _ _ _ (proj1 Hwf) H) as [[_ E']|Hd].
    + rewrite E' in Hin. right. eauto.
    + destruct Hd as (l1 & u & l2 & E & _ & _ & _ & ->). simpl in Hin.
      right. exists u'. rewrite E. split; [|auto].
      apply in_app_or in Hin. apply in_or_app.
      destruct Hin; [now left | right; now right].
Qed.

(** X15.  The sync mutations never write [posts]: after any sequence of
    sync calls, a record either owns no posts or is a document that was
    there at the start, then with the same posts. *)
Theorem sync_calls_never_write_posts
    (cs : list SyncCall) (w : World) (u' : User) :
  wf_table (db w) ->
  In u' (Db.docs (db (runCalls cs w))) ->
  posts u' = None \/
  exists u, In u (Db.docs (db w)) /\ _id u = _id u' /\ posts u = posts u'.
Proof.
  revert w. induction cs as [|c cs IH]; simpl; intros w Hwf Hin.
  - right. eauto.
  - destruct (IH _ (runCall_wf c w Hwf) Hin) as [Hn|(u1 & H1 & Hi & Hp)];
      [now left|].
    destruct (runCall_posts c w u1 Hwf H1) as [Hn|(u & H0 & Hi0 & Hp0)].
    + left. congruence.
    + right. exists u. repeat split; congruence.
Qed.

Lemma sync_calls_never_write_posts_witness :
  posts (mkUser 1 "a@example.com" "u_1" None None
                (Some "https://img.example/1.png") (Some [7; 9])) = None \/
  exists u, In u (Db.docs (db Sample.with_u1)) /\ _id u = 1 /\
            posts u = Some [7; 9].
Proof.
  apply (sync_calls_never_write_posts
           [CallUpsert Sample.updated; CallDelete "u_2";
            CallUpsert Sample.created]
           Sample.with_u1
           (mkUser 1 "a@example.com" "u_1" None None
                   (Some "https://img.example/1.png") (Some [7; 9]))).
  - split; simpl.
    + repeat constructor; simpl; intuition discriminate.
    + repeat constructor.
  - simpl. auto.
Defined.

(** X16.  Started on an empty table, the sync calls alone never bring the
    module to a table on which a lookup throws: after any sequence of
    calls, [userByClerkUserId] returns for every subject id, and [current]
    returns for every caller. *)
Theorem sync_from_empty_lookup_never_throws
    (cs : list SyncCall) (log : list string) (o : option UserIdentity)
    (c : string) :
  (exists r,
     userByClerkUserId c (db (runCalls cs (mkWorld Db.empty log))) = Ok r) /\
  (exists r,
     current (mkQueryCtx o (db (runCalls cs (mkWorld Db.empty log)))) = Ok r).
Proof.
  assert (K : one_per_subject (db (runCalls cs (mkWorld Db.empty log)))).
  { apply runCalls_keep; apply wf_empty. }
  split; [now apply userByClerkUserId_total|].
  unfold current, getCurrentUser. simpl.
  destruct o as [i|]; [now apply userByClerkUserId_total | eauto].
Qed.
